(** * Main.c: AST traversal, complexity metrics and DOT emission

    A shallow embedding of [visitor] and [main] of [src/Main.c].  The
    [Metrics] structure that the C code mutates through a pointer is passed
    explicitly; the stream behind [dotFile] is the list of lines written so
    far; C [int] arithmetic and indexing of the fixed-size [nodeStack] array
    are checked, so that a run that leaves the behaviour defined by C is
    reported as [Undef]. *)

From Stdlib Require Import ZArith String Ascii List Lia.
From stdpp Require Import base tactics option list numbers strings pretty.

Open Scope Z_scope.

(** ** Checked C operations *)

Inductive Undefined : Type :=
  | SignedOverflow
  | OutOfBounds (index : Z).

Inductive result (A : Type) : Type :=
  | Ok (a : A)
  | Undef (u : Undefined).

Arguments Ok {A} a.
Arguments Undef {A} u.

#[global] Instance result_bind : MBind result := fun A B k r =>
  match r with
  | Ok a => k a
  | Undef u => Undef u
  end.

Definition INT_MAX : Z := 2147483647.
Definition INT_MIN : Z := -2147483648.

(** [x + y] on [int]; signed overflow is undefined behaviour. *)
Definition int_add (x y : Z) : result Z :=
  let r := x + y in
  if (INT_MIN <=? r) && (r <=? INT_MAX) then Ok r else Undef SignedOverflow.

(** [a[i]] as an rvalue and [a[i] = v], on an array whose size is the length
    of [a]; stdpp's insert leaves the list alone out of range, C does not. *)
Definition array_load (a : list Z) (i : Z) : result Z :=
  if 0 <=? i then
    match a !! Z.to_nat i with
    | Some v => Ok v
    | None => Undef (OutOfBounds i)
    end
  else Undef (OutOfBounds i).

Definition array_store (a : list Z) (i v : Z) : result (list Z) :=
  if (0 <=? i) && (i <? Z.of_nat (length a))
  then Ok (<[Z.to_nat i := v]> a)
  else Undef (OutOfBounds i).

(** ** The part of libclang that the program uses *)

Inductive CXCursorKind : Type :=
  | CXCursor_VarDecl
  | CXCursor_FunctionDecl
  | CXCursor_ParmDecl
  | CXCursor_DeclRefExpr
  | CXCursor_CallExpr
  | CXCursor_IntegerLiteral
  | CXCursor_StringLiteral
  | CXCursor_BinaryOperator
  | CXCursor_ConditionalOperator
  | CXCursor_CompoundStmt
  | CXCursor_CaseStmt
  | CXCursor_DefaultStmt
  | CXCursor_IfStmt
  | CXCursor_SwitchStmt
  | CXCursor_WhileStmt
  | CXCursor_DoStmt
  | CXCursor_ForStmt
  | CXCursor_ReturnStmt
  | CXCursor_DeclStmt
  | CXCursor_TranslationUnit.

#[global] Instance CXCursorKind_eq_dec : EqDecision CXCursorKind.
Proof. solve_decision. Defined.

(** A cursor, as far as the program looks at it: its kind, its spelling and
    the cursors below it, in source order. *)
Local Unset Elimination Schemes.
Inductive CXCursor : Type :=
  mkCursor {
    clang_getCursorKind : CXCursorKind;
    clang_getCursorSpelling : string;
    cursorChildren : list CXCursor
  }.
Local Set Elimination Schemes.

Inductive CXChildVisitResult : Type :=
  | CXChildVisit_Break
  | CXChildVisit_Continue
  | CXChildVisit_Recurse.

Record CXTranslationUnit : Type := {
  tuSpelling : string;
  tuDecls : list CXCursor
}.

Definition clang_getTranslationUnitCursor (unit : CXTranslationUnit) : CXCursor :=
  mkCursor CXCursor_TranslationUnit (tuSpelling unit) (tuDecls unit).

Section VisitChildren.
Context {D : Type}.

(** One sweep over a sibling list: [step] says whether the sweep goes on
    ([true]) or was broken off, and returns the client data. *)
Definition visit_siblings (step : CXCursor -> D -> result (bool * D))
  : list CXCursor -> D -> result (bool * D) :=
  fix sweep (cs : list CXCursor) (data : D) : result (bool * D) :=
    match cs with
    | [] => Ok (true, data)
    | c :: cs' =>
        '(go_on, data') ← step c data;
        if go_on : bool then sweep cs' data' else Ok (false, data')
    end.

Variable visitor : CXCursor -> CXCursor -> D -> result (CXChildVisitResult * D).

(** [walk parent data] calls the visitor on each child of [parent], left to
    right, and obeys its answer: stop, go to the next sibling, or descend
    into the child's own children first. *)
Fixpoint walk (parent : CXCursor) (data : D) : result (bool * D) :=
  visit_siblings
    (fun child data =>
       '(answer, data') ← visitor child parent data;
       match answer with
       | CXChildVisit_Break => Ok (false, data')
       | CXChildVisit_Continue => Ok (true, data')
       | CXChildVisit_Recurse => walk child data'
       end)
    (cursorChildren parent) data.

(** The return value is nonzero when the traversal was broken off. *)
Definition clang_visitChildren (parent : CXCursor) (client_data : D)
  : result (Z * D) :=
  '(go_on, data') ← walk parent client_data;
  Ok (if go_on : bool then 0 else 1, data').

End VisitChildren.

(** ** The DOT stream *)

Inductive DotLine : Type :=
  | DotOpen
  | DotNode (id : Z) (label : string)
  | DotEdge (from to : Z)
  | DotClose.

(** ** Metrics *)

Record Metrics : Type := mkMetrics {
  cyclomatic : Z;
  varDeclCount : Z;
  currentLoopDepth : Z;
  maxLoopDepth : Z;
  dotFile : list DotLine;
  nodeCounter : Z;
  nodeStack : list Z;
  stackTop : Z
}.

Definition set_cyclomatic (v : Z) (m : Metrics) : Metrics :=
  mkMetrics v (varDeclCount m) (currentLoopDepth m) (maxLoopDepth m)
            (dotFile m) (nodeCounter m) (nodeStack m) (stackTop m).
Definition set_varDeclCount (v : Z) (m : Metrics) : Metrics :=
  mkMetrics (cyclomatic m) v (currentLoopDepth m) (maxLoopDepth m)
            (dotFile m) (nodeCounter m) (nodeStack m) (stackTop m).
Definition set_currentLoopDepth (v : Z) (m : Metrics) : Metrics :=
  mkMetrics (cyclomatic m) (varDeclCount m) v (maxLoopDepth m)
            (dotFile m) (nodeCounter m) (nodeStack m) (stackTop m).
Definition set_maxLoopDepth (v : Z) (m : Metrics) : Metrics :=
  mkMetrics (cyclomatic m) (varDeclCount m) (currentLoopDepth m) v
            (dotFile m) (nodeCounter m) (nodeStack m) (stackTop m).
Definition set_nodeCounter (v : Z) (m : Metrics) : Metrics :=
  mkMetrics (cyclomatic m) (varDeclCount m) (currentLoopDepth m) (maxLoopDepth m)
            (dotFile m) v (nodeStack m) (stackTop m).
Definition set_nodeStack (v : list Z) (m : Metrics) : Metrics :=
  mkMetrics (cyclomatic m) (varDeclCount m) (currentLoopDepth m) (maxLoopDepth m)
            (dotFile m) (nodeCounter m) v (stackTop m).
Definition set_stackTop (v : Z) (m : Metrics) : Metrics :=
  mkMetrics (cyclomatic m) (varDeclCount m) (currentLoopDepth m) (maxLoopDepth m)
            (dotFile m) (nodeCounter m) (nodeStack m) v.

(** [fprintf(metrics->dotFile, ...)]: one more line at the end of the stream. *)
Definition fprintf_dot (line : DotLine) (m : Metrics) : Metrics :=
  mkMetrics (cyclomatic m) (varDeclCount m) (currentLoopDepth m) (maxLoopDepth m)
            (dotFile m ++ [line]) (nodeCounter m) (nodeStack m) (stackTop m).

Definition is_decision (kind : CXCursorKind) : bool :=
  bool_decide (kind = CXCursor_IfStmt)
  || bool_decide (kind = CXCursor_ForStmt)
  || bool_decide (kind = CXCursor_WhileStmt)
  || bool_decide (kind = CXCursor_CaseStmt)
  || bool_decide (kind = CXCursor_ConditionalOperator).

Definition is_loop (kind : CXCursorKind) : bool :=
  bool_decide (kind = CXCursor_ForStmt) || bool_decide (kind = CXCursor_WhileStmt).

(** ** [visitor] *)

Fixpoint visitor (current parent : CXCursor) (metrics : Metrics) {struct current}
  : result (CXChildVisitResult * Metrics) :=
  (* int nodeId = metrics->nodeCounter++; *)
  let nodeId := nodeCounter metrics in
  counter ← int_add (nodeCounter metrics) 1;
  let metrics := set_nodeCounter counter metrics in
  (* the node line, with the cursor's spelling as label *)
  let label := clang_getCursorSpelling current in
  let metrics := fprintf_dot (DotNode nodeId label) metrics in
  (* an edge from the node on top of the stack *)
  metrics ← (if 0 <? stackTop metrics then
                parentId ← array_load (nodeStack metrics) (stackTop metrics - 1);
                Ok (fprintf_dot (DotEdge parentId nodeId) metrics)
              else Ok metrics);
  (* metrics->nodeStack[metrics->stackTop++] = nodeId; *)
  stack ← array_store (nodeStack metrics) (stackTop metrics) nodeId;
  top ← int_add (stackTop metrics) 1;
  let metrics := set_stackTop top (set_nodeStack stack metrics) in
  let kind := clang_getCursorKind current in
  metrics ← (if is_decision kind then
                c ← int_add (cyclomatic metrics) 1;
                Ok (set_cyclomatic c metrics)
              else Ok metrics);
  metrics ← (if bool_decide (kind = CXCursor_VarDecl) then
                c ← int_add (varDeclCount metrics) 1;
                Ok (set_varDeclCount c metrics)
              else Ok metrics);
  let isLoop := is_loop kind in
  metrics ← (if isLoop then
                d ← int_add (currentLoopDepth metrics) 1;
                let metrics := set_currentLoopDepth d metrics in
                Ok (if maxLoopDepth metrics <? currentLoopDepth metrics
                    then set_maxLoopDepth (currentLoopDepth metrics) metrics
                    else metrics)
              else Ok metrics);
  (* clang_visitChildren(current, visitor, client_data); *)
  '(_, metrics) ← clang_visitChildren visitor current metrics;
  metrics ← (if isLoop then
                d ← int_add (currentLoopDepth metrics) (-1);
                Ok (set_currentLoopDepth d metrics)
              else Ok metrics);
  (* metrics->stackTop--; *)
  top ← int_add (stackTop metrics) (-1);
  let metrics := set_stackTop top metrics in
  Ok (CXChildVisit_Continue, metrics).

(** ** The text of the DOT stream *)

Definition dquote : string := String (ascii_of_nat 34) EmptyString.
Definition backslash : ascii := ascii_of_nat 92.
Definition newline : string := String (ascii_of_nat 10) EmptyString.

(** What each [fprintf] on [dotFile] writes; [%d] is [pretty], [%s] copies
    the argument as it is. *)
Definition dot_text (line : DotLine) : string :=
  match line with
  | DotOpen => "digraph G {" +:+ newline
  | DotNode id label =>
      "  node" +:+ pretty id +:+ " [label=" +:+ dquote +:+ label +:+ dquote
      +:+ "];" +:+ newline
  | DotEdge from to =>
      "  node" +:+ pretty from +:+ " -> node" +:+ pretty to +:+ ";" +:+ newline
  | DotClose => "}" +:+ newline
  end.

Definition file_text (lines : list DotLine) : string :=
  foldr (fun line rest => dot_text line +:+ rest) EmptyString lines.

(** ** [main] *)

Record Env : Type := {
  (* argv[0], the program name, and argv[1..argc-1]; argc is their number *)
  argv0 : string;
  args : list string;
  (* does fopen(path, "w") give a stream? *)
  fopen_w : string -> bool;
  clang_parseTranslationUnit : string -> option CXTranslationUnit;
  (* the status that system(command) returns *)
  system : string -> Z
}.

Inductive Diagnostic : Type :=
  | UsageMessage (prog : string)
  | Perror (what : string)
  | UnableToParse
  | FailedToConvert
  | FailedToLaunch.

Record Outcome : Type := {
  exit_status : Z;
  (* what the program wrote to ast.dot, when it opened it *)
  ast_dot : option (list DotLine);
  (* what main itself prints with printf, and with fprintf and perror on
     stderr; what the commands started by system() write to the same
     streams is not part of these *)
  stdout : list string;
  stderr : list Diagnostic;
  (* the commands handed to system(), in order *)
  commands : list string
}.

Definition STACK_SIZE : nat := 1024.

(** [Metrics metrics = {0}] and the assignments that follow it. *)
Definition initial_metrics (stream : list DotLine) : Metrics :=
  {| cyclomatic := 1;
     varDeclCount := 0;
     currentLoopDepth := 0;
     maxLoopDepth := 0;
     dotFile := stream;
     nodeCounter := 0;
     nodeStack := replicate STACK_SIZE 0;
     stackTop := 0 |}.

Definition render_command : string := "dot -Tsvg ast.dot -o ast.svg".
Definition view_command : string :=
  "sh -c 'xdg-open ast.svg && echo " +:+ dquote
  +:+ "Press Enter to delete the SVG file" +:+ dquote
  +:+ " && read dummy && rm ast.svg ast.dot'".

Definition report (metrics : Metrics) : list string :=
  [ "Cyclomatic Complexity: " +:+ pretty (cyclomatic metrics) +:+ newline;
    "Estimated Time Complexity: O(n^" +:+ pretty (maxLoopDepth metrics)
      +:+ ") based on max loop nesting depth" +:+ newline;
    "Estimated Space Complexity: O(n) with " +:+ pretty (varDeclCount metrics)
      +:+ " variable declarations" +:+ newline ].

Definition main (env : Env) : result Outcome :=
  let argc := 1 + Z.of_nat (length (args env)) in
  if argc <? 2 then
    Ok {| exit_status := 1; ast_dot := None; stdout := [];
          stderr := [UsageMessage (argv0 env)]; commands := [] |}
  else if negb (fopen_w env "ast.dot") then
    Ok {| exit_status := 1; ast_dot := None; stdout := [];
          stderr := [Perror "fopen"]; commands := [] |}
  else
    let stream := [DotOpen] in
    match clang_parseTranslationUnit env (default EmptyString (args env !! 0%nat)) with
    | None =>
        Ok {| exit_status := 1; ast_dot := Some stream; stdout := [];
              stderr := [UnableToParse]; commands := [] |}
    | Some unit =>
        let rootCursor := clang_getTranslationUnitCursor unit in
        let metrics := initial_metrics stream in
        '(_, metrics) ← clang_visitChildren visitor rootCursor metrics;
        let stream := dotFile metrics ++ [DotClose] in
        let warn1 :=
          if bool_decide (system env render_command = 0) then []
          else [FailedToConvert] in
        let warn2 :=
          if bool_decide (system env view_command = 0) then []
          else [FailedToLaunch] in
        Ok {| exit_status := 0; ast_dot := Some stream;
              stdout := report metrics;
              stderr := warn1 ++ warn2;
              commands := [render_command; view_command] |}
    end.

(** The traversal that [main] starts: the visitor runs on everything below
    the translation unit's cursor, on the metrics as [main] sets them up. *)
Definition traverse (unit : CXTranslationUnit) : result Metrics :=
  '(_, metrics) ← clang_visitChildren visitor
                    (clang_getTranslationUnitCursor unit)
                    (initial_metrics [DotOpen]);
  Ok metrics.

(** ** The tree, as the claims speak of it *)

(** Induction on cursors, with the property at hand for all the children. *)
Section CXCursor_ind.
Variable P : CXCursor -> Prop.
Hypothesis Hnode : forall kind spelling children,
    Forall P children -> P (mkCursor kind spelling children).

Fixpoint CXCursor_ind (c : CXCursor) : P c :=
  match c with
  | mkCursor kind spelling children =>
      Hnode kind spelling children
        ((fix all (cs : list CXCursor) : Forall P cs :=
            match cs with
            | [] => Stdlib.Lists.List.Forall_nil P
            | c' :: cs' =>
                Stdlib.Lists.List.Forall_cons P c' cs' (CXCursor_ind c') (all cs')
            end) children)
  end.

End CXCursor_ind.

(** A cursor and everything below it, parents first, siblings left to right. *)
Fixpoint preorder (c : CXCursor) : list CXCursor :=
  c :: flat_map preorder (cursorChildren c).

(** The cursors the visitor is called on: all but the root. *)
Definition visited (root : CXCursor) : list CXCursor :=
  flat_map preorder (cursorChildren root).

Definition count (p : CXCursorKind -> bool) (cs : list CXCursor) : Z :=
  Z.of_nat (length (List.filter (fun c => p (clang_getCursorKind c)) cs)).

Definition is_var_decl (kind : CXCursorKind) : bool :=
  bool_decide (kind = CXCursor_VarDecl).

(** The number of levels of a forest; the depth of a cursor is the number of
    levels below it, that is the longest path down from it, in edges. *)
Fixpoint depth (c : CXCursor) : Z :=
  foldr Z.max 0 (map (fun child => 1 + depth child) (cursorChildren c)).

Definition levels (cs : list CXCursor) : Z :=
  foldr Z.max 0 (map (fun c => 1 + depth c) cs).

(** For every loop cursor at or below [c], the number of loop cursors on the
    path to it, itself included; [enclosing] counts the loops above [c]. *)
Fixpoint loop_depths (enclosing : Z) (c : CXCursor) : list Z :=
  let here := if is_loop (clang_getCursorKind c) then enclosing + 1 else enclosing in
  (if is_loop (clang_getCursorKind c) then [here] else [])
  ++ flat_map (loop_depths here) (cursorChildren c).

(** The pre-order numbering of a forest, kept as a tree of the same shape. *)
Local Unset Elimination Schemes.
Inductive IdTree : Type :=
  IdNode { id_of : Z; label_of : string; subtrees : list IdTree }.
Local Set Elimination Schemes.

Definition size (c : CXCursor) : Z := Z.of_nat (length (preorder c)).

Fixpoint number (next : Z) (c : CXCursor) : IdTree :=
  IdNode next (clang_getCursorSpelling c)
    ((fix number_all (next : Z) (cs : list CXCursor) : list IdTree :=
        match cs with
        | [] => []
        | c' :: cs' => number next c' :: number_all (next + size c') cs'
        end) (next + 1) (cursorChildren c)).

Fixpoint number_forest (next : Z) (cs : list CXCursor) : list IdTree :=
  match cs with
  | [] => []
  | c :: cs' => number next c :: number_forest (next + size c) cs'
  end.

Fixpoint nodes_of (t : IdTree) : list (Z * string) :=
  (id_of t, label_of t) :: flat_map nodes_of (subtrees t).

Fixpoint edges_of (t : IdTree) : list (Z * Z) :=
  flat_map (fun child => (id_of t, id_of child) :: edges_of child) (subtrees t).

(** Same labels, same children in the same order. *)
#[warnings="-register-all"]
Inductive same_shape : CXCursor -> IdTree -> Prop :=
  same_shape_node kind label cs id ts :
    Forall2 same_shape cs ts ->
    same_shape (mkCursor kind label cs) (IdNode id label ts).

(** The lines the traversal of [c] appends, when [parent] is the identifier
    on top of the stack and [next] the value of the node counter. *)
Fixpoint lines_of (parent : option Z) (next : Z) (c : CXCursor) : list DotLine :=
  DotNode next (clang_getCursorSpelling c)
  :: match parent with Some p => [DotEdge p next] | None => [] end
  ++ (fix lines_all (next' : Z) (cs : list CXCursor) : list DotLine :=
        match cs with
        | [] => []
        | c' :: cs' => lines_of (Some next) next' c' ++ lines_all (next' + size c') cs'
        end) (next + 1) (cursorChildren c).

Fixpoint lines_of_forest (parent : option Z) (next : Z) (cs : list CXCursor)
  : list DotLine :=
  match cs with
  | [] => []
  | c :: cs' => lines_of parent next c ++ lines_of_forest parent (next + size c) cs'
  end.

Definition node_records (lines : list DotLine) : list (Z * string) :=
  flat_map (fun line => match line with DotNode id l => [(id, l)] | _ => [] end) lines.

Definition edge_records (lines : list DotLine) : list (Z * Z) :=
  flat_map (fun line => match line with DotEdge p c => [(p, c)] | _ => [] end) lines.

(** ** The visitor, cut at the recursive call *)

(** What [visitor] does to the metrics before it visits the children. *)
Definition enter (current : CXCursor) (metrics : Metrics) : result Metrics :=
  let nodeId := nodeCounter metrics in
  counter ← int_add (nodeCounter metrics) 1;
  let metrics := set_nodeCounter counter metrics in
  let metrics := fprintf_dot (DotNode nodeId (clang_getCursorSpelling current)) metrics in
  metrics ← (if 0 <? stackTop metrics then
               parentId ← array_load (nodeStack metrics) (stackTop metrics - 1);
               Ok (fprintf_dot (DotEdge parentId nodeId) metrics)
             else Ok metrics);
  stack ← array_store (nodeStack metrics) (stackTop metrics) nodeId;
  top ← int_add (stackTop metrics) 1;
  let metrics := set_stackTop top (set_nodeStack stack metrics) in
  let kind := clang_getCursorKind current in
  metrics ← (if is_decision kind then
               c ← int_add (cyclomatic metrics) 1;
               Ok (set_cyclomatic c metrics)
             else Ok metrics);
  metrics ← (if bool_decide (kind = CXCursor_VarDecl) then
               c ← int_add (varDeclCount metrics) 1;
               Ok (set_varDeclCount c metrics)
             else Ok metrics);
  if is_loop kind then
    d ← int_add (currentLoopDepth metrics) 1;
    let metrics := set_currentLoopDepth d metrics in
    Ok (if maxLoopDepth metrics <? currentLoopDepth metrics
        then set_maxLoopDepth (currentLoopDepth metrics) metrics
        else metrics)
  else Ok metrics.

(** ... and after it has visited them. *)
Definition leave (current : CXCursor) (metrics : Metrics)
  : result (CXChildVisitResult * Metrics) :=
  metrics ← (if is_loop (clang_getCursorKind current) then
               d ← int_add (currentLoopDepth metrics) (-1);
               Ok (set_currentLoopDepth d metrics)
             else Ok metrics);
  top ← int_add (stackTop metrics) (-1);
  Ok (CXChildVisit_Continue, set_stackTop top metrics).

(** The sweep over a sibling list when the callback is [visitor]. *)
Definition visit_all (parent : CXCursor) : list CXCursor -> Metrics -> result (bool * Metrics) :=
  visit_siblings
    (fun child data =>
       '(answer, data') ← visitor child parent data;
       match answer with
       | CXChildVisit_Break => Ok (false, data')
       | CXChildVisit_Continue => Ok (true, data')
       | CXChildVisit_Recurse => walk visitor child data'
       end).

(** The identifier that an edge written now would start from. *)
Definition top_id (m : Metrics) : option Z :=
  if 0 <? stackTop m then nodeStack m !! Z.to_nat (stackTop m - 1) else None.

Definition total (cs : list CXCursor) : Z :=
  Z.of_nat (length (flat_map preorder cs)).

(** Room for [n] more cursors on [h] more levels. *)
Record fits (m : Metrics) (n h : Z) : Prop := {
  fits_capacity : Z.of_nat (length (nodeStack m)) < INT_MAX;
  fits_stackTop : 0 <= stackTop m /\ stackTop m + h <= Z.of_nat (length (nodeStack m));
  fits_nodeCounter : 0 <= nodeCounter m /\ nodeCounter m + n <= INT_MAX;
  fits_cyclomatic : 0 <= cyclomatic m /\ cyclomatic m + n <= INT_MAX;
  fits_varDeclCount : 0 <= varDeclCount m /\ varDeclCount m + n <= INT_MAX;
  fits_currentLoopDepth : 0 <= currentLoopDepth m /\ currentLoopDepth m + n <= INT_MAX
}.

Definition b2z (b : bool) : Z := if b then 1 else 0.

(** The metrics on the way into the children of [c]. *)
Definition entered (c : CXCursor) (m : Metrics) : Metrics :=
  let kind := clang_getCursorKind c in
  {| cyclomatic := cyclomatic m + b2z (is_decision kind);
     varDeclCount := varDeclCount m + b2z (is_var_decl kind);
     currentLoopDepth := currentLoopDepth m + b2z (is_loop kind);
     maxLoopDepth :=
       if is_loop kind then Z.max (maxLoopDepth m) (currentLoopDepth m + 1)
       else maxLoopDepth m;
     dotFile :=
       dotFile m ++ DotNode (nodeCounter m) (clang_getCursorSpelling c)
       :: match top_id m with Some p => [DotEdge p (nodeCounter m)] | None => [] end;
     nodeCounter := nodeCounter m + 1;
     nodeStack := <[Z.to_nat (stackTop m) := nodeCounter m]> (nodeStack m);
     stackTop := stackTop m + 1 |}.

(** The metrics on the way out of [c], from the metrics [m] in which the
    sweep over its children ended. *)
Definition left (c : CXCursor) (m : Metrics) : Metrics :=
  {| cyclomatic := cyclomatic m;
     varDeclCount := varDeclCount m;
     currentLoopDepth := currentLoopDepth m - b2z (is_loop (clang_getCursorKind c));
     maxLoopDepth := maxLoopDepth m;
     dotFile := dotFile m;
     nodeCounter := nodeCounter m;
     nodeStack := nodeStack m;
     stackTop := stackTop m - 1 |}.

(** *** What a completed sweep over the forest [cs] has done to the metrics *)

Record effect (cs : list CXCursor) (m m' : Metrics) : Prop := {
  eff_cyclomatic :
    cyclomatic m' = cyclomatic m + count is_decision (flat_map preorder cs);
  eff_varDeclCount :
    varDeclCount m' = varDeclCount m + count is_var_decl (flat_map preorder cs);
  eff_currentLoopDepth : currentLoopDepth m' = currentLoopDepth m;
  eff_maxLoopDepth :
    maxLoopDepth m' =
      fold_left Z.max (flat_map (loop_depths (currentLoopDepth m)) cs) (maxLoopDepth m);
  eff_dotFile :
    dotFile m' = dotFile m ++ lines_of_forest (top_id m) (nodeCounter m) cs;
  eff_nodeCounter : nodeCounter m' = nodeCounter m + total cs;
  eff_stackTop : stackTop m' = stackTop m;
  eff_length : length (nodeStack m') = length (nodeStack m);
  eff_below : forall i : nat,
    (i < Z.to_nat (stackTop m))%nat -> nodeStack m' !! i = nodeStack m !! i
}.

(** The visitor completes wherever there is room ... *)
Definition visits_well (c : CXCursor) : Prop :=
  forall (parent : CXCursor) (m : Metrics) (n h : Z),
    fits m n h ->
    1 + total (cursorChildren c) <= n ->
    1 + levels (cursorChildren c) <= h ->
    exists m2,
      visitor c parent m = Ok (CXChildVisit_Continue, left c m2)
      /\ effect (cursorChildren c) (entered c m) m2.

(** ... and runs off the stack wherever the tree is too deep. *)
Definition overruns (c : CXCursor) : Prop :=
  forall (parent : CXCursor) (m : Metrics) (n : Z),
    fits m n 0 ->
    1 + total (cursorChildren c) <= n ->
    Z.of_nat (length (nodeStack m)) < stackTop m + 1 + levels (cursorChildren c) ->
    visitor c parent m = Undef (OutOfBounds (Z.of_nat (length (nodeStack m)))).

(** What the visitor has done wherever it has completed. *)
Definition visits_right (c : CXCursor) : Prop :=
  forall (parent : CXCursor) (m : Metrics) (r : CXChildVisitResult) (m' : Metrics),
    visitor c parent m = Ok (r, m') ->
    r = CXChildVisit_Continue
    /\ 0 <= stackTop m < Z.of_nat (length (nodeStack m))
    /\ exists m2, m' = left c m2 /\ effect (cursorChildren c) (entered c m) m2.

(** The edge that ties a tree to the cursor above it, when there is one. *)
Definition edge_from (parent : option Z) (t : IdTree) : list (Z * Z) :=
  match parent with Some p => [(p, id_of t)] | None => [] end.

(** The trees on which the run stays inside what C defines: the stack has a
    slot for every level, and the [int] counters can count every cursor. *)
Definition in_range (unit : CXTranslationUnit) : Prop :=
  depth (clang_getTranslationUnitCursor unit) <= 1024
  /\ Z.of_nat (length (visited (clang_getTranslationUnitCursor unit))) < INT_MAX.

(** [d] is the greatest number of nested loops in the tree below [root]:
    the maximum, over the loop cursors, of the number of loop cursors on the
    path from [root] to the cursor, itself included, and 0 without loops. *)
Definition deepest_nesting (root : CXCursor) (d : Z) : Prop :=
  (forall x, In x (loop_depths 0 root) -> x <= d)
  /\ (loop_depths 0 root <> [] -> In d (loop_depths 0 root))
  /\ (count is_loop (preorder root) = 0 -> d = 0).

(** The records are those of the forest [tops], numbered in pre-order from
    0: one node per cursor, one edge per cursor and child. *)
Definition graph_of_forest (tops : list CXCursor)
    (nodes : list (Z * string)) (edges : list (Z * Z)) : Prop :=
  Forall2 same_shape tops (number_forest 0 tops)
  /\ nodes = flat_map nodes_of (number_forest 0 tops)
  /\ edges = flat_map edges_of (number_forest 0 tops).

(** The node records are one per cursor of [cursors], in that order, with
    the identifiers 0, 1, 2, ...: distinct, and increasing as written. *)
Definition numbered_in_order (cursors : list CXCursor)
    (nodes : list (Z * string)) : Prop :=
  map snd nodes = map clang_getCursorSpelling cursors
  /\ map fst nodes = seqZ 0 (Z.of_nat (length cursors))
  /\ NoDup (map fst nodes)
  /\ (forall (i j : nat) (a b : Z),
        map fst nodes !! i = Some a -> map fst nodes !! j = Some b ->
        (i < j)%nat -> a < b).

(** *** Labels in the DOT text *)

(** The rule of the DOT scanner for a double-quoted string, applied from
    just after the opening quote: a backslash followed by a quote or by a
    backslash is an escape pair, and the first quote outside such a pair ends
    the string.  The result is the text after the closing quote. *)
Fixpoint after_quoted (s : string) : option string :=
  match s with
  | EmptyString => None
  | String a rest =>
      if Ascii.eqb a (ascii_of_nat 34) then Some rest
      else if Ascii.eqb a backslash then
        match rest with
        | EmptyString => None
        | String b rest' =>
            if Ascii.eqb b (ascii_of_nat 34) || Ascii.eqb b backslash
            then after_quoted rest'
            else after_quoted rest
        end
      else after_quoted rest
  end.

Fixpoint strip_prefix (prefix s : string) : option string :=
  match prefix, s with
  | EmptyString, _ => Some s
  | String a prefix', String b s' =>
      if Ascii.eqb a b then strip_prefix prefix' s' else None
  | String _ _, EmptyString => None
  end.

(** Does [text] scan as the statement that declares node [id] with one
    quoted label, the way [visitor] means it? *)
Definition node_line_scans (id : Z) (text : string) : bool :=
  match strip_prefix ("  node" +:+ pretty id +:+ " [label=" +:+ dquote) text with
  | Some body =>
      match after_quoted body with
      | Some rest => String.eqb rest ("];" +:+ newline)
      | None => false
      end
  | None => false
  end.

(** The spelling of the string literal in [puts("hi")], quotes included. *)
Definition hi_literal : string := dquote +:+ "hi" +:+ dquote.

Definition hi_unit : CXTranslationUnit :=
  {| tuSpelling := "hi.c";
     tuDecls := [mkCursor CXCursor_StringLiteral hi_literal []] |}.

(** *** The outcomes of [main] *)

Definition usage_error (env : Env) : Prop := args env = [].

Definition open_failure (env : Env) : Prop := fopen_w env "ast.dot" = false.

Definition parse_failure (env : Env) : Prop :=
  match args env with
  | path :: _ => clang_parseTranslationUnit env path = None
  | [] => False
  end.

(** If [main] gets a tree, the tree is within the limits. *)
Definition parsed_in_range (env : Env) : Prop :=
  match args env with
  | path :: _ =>
      match clang_parseTranslationUnit env path with
      | Some unit => in_range unit
      | None => True
      end
  | [] => True
  end.

Definition with_system (status : string -> Z) (env : Env) : Env :=
  {| argv0 := argv0 env;
     args := args env;
     fopen_w := fopen_w env;
     clang_parseTranslationUnit := clang_parseTranslationUnit env;
     system := status |}.

(** *** The stack bound *)

(** A chain of [n + 1] compound statements, each in the one above. *)
Fixpoint chain (n : nat) : CXCursor :=
  match n with
  | O => mkCursor CXCursor_CompoundStmt EmptyString []
  | S k => mkCursor CXCursor_CompoundStmt EmptyString [chain k]
  end.

Definition deep_unit : CXTranslationUnit :=
  {| tuSpelling := "deep.c"; tuDecls := [chain 1024] |}.

(** ** Concrete runs *)

(** [int g; void f(void) { int x; if (..) for (..) for (..) puts("hi"); }],
    cut down to the cursors that matter. *)
Definition sample_unit : CXTranslationUnit :=
  {| tuSpelling := "sample.c";
     tuDecls :=
       [ mkCursor CXCursor_VarDecl "g" [];
         mkCursor CXCursor_FunctionDecl "f"
           [ mkCursor CXCursor_CompoundStmt EmptyString
               [ mkCursor CXCursor_DeclStmt EmptyString
                   [ mkCursor CXCursor_VarDecl "x" [] ];
                 mkCursor CXCursor_IfStmt EmptyString
                   [ mkCursor CXCursor_ForStmt EmptyString
                       [ mkCursor CXCursor_ForStmt EmptyString
                           [ mkCursor CXCursor_CallExpr "puts"
                               [ mkCursor CXCursor_StringLiteral hi_literal [] ] ] ] ] ] ] ] |}.

(** Two globals and nothing else. *)
Definition two_globals : CXTranslationUnit :=
  {| tuSpelling := "globals.c";
     tuDecls := [ mkCursor CXCursor_VarDecl "a" []; mkCursor CXCursor_VarDecl "b" [] ] |}.

Definition sample_env : Env :=
  {| argv0 := "analyzer";
     args := ["sample.c"];
     fopen_w := fun _ => true;
     clang_parseTranslationUnit := fun _ => Some sample_unit;
     system := fun _ => 0 |}.

Definition unparsable_env : Env :=
  {| argv0 := "analyzer";
     args := ["missing.c"];
     fopen_w := fun _ => true;
     clang_parseTranslationUnit := fun _ => None;
     system := fun _ => 0 |}.

(** The metrics at the end of the traversal of [sample_unit]. *)
Definition sample_metrics : Metrics :=
  match traverse sample_unit with
  | Ok m => m
  | Undef _ => initial_metrics []
  end.

(** What [main] returns with on [env], when it returns. *)
Definition outcome_of (env : Env) : Outcome :=
  match main env with
  | Ok o => o
  | Undef _ =>
      {| exit_status := 0; ast_dot := None; stdout := []; stderr := [];
         commands := [] |}
  end.

(** ** Further vocabulary *)

(** One pass over the lines of the stream that checks where the edge lines
    stand: [last] is the node declared by the line just read, if that line
    was a node line. An edge line is accepted only directly after the node
    line of the cursor it leads to. *)
Fixpoint scan_lines (last : option Z) (lines : list DotLine) : option (option Z) :=
  match lines with
  | [] => Some last
  | DotNode id _ :: rest => scan_lines (Some id) rest
  | DotEdge _ to :: rest =>
      if bool_decide (last = Some to) then scan_lines None rest else None
  | DotOpen :: rest => scan_lines None rest
  | DotClose :: rest => scan_lines None rest
  end.

(** A label without quote and without backslash. *)
Fixpoint plain_label (s : string) : bool :=
  match s with
  | EmptyString => true
  | String a rest =>
      negb (Ascii.eqb a (ascii_of_nat 34)) && negb (Ascii.eqb a backslash)
      && plain_label rest
  end.

(** What [main] writes to the standard error stream after the two commands. *)
Definition warnings (env : Env) : list Diagnostic :=
  (if bool_decide (system env render_command = 0) then [] else [FailedToConvert])
  ++ (if bool_decide (system env view_command = 0) then [] else [FailedToLaunch]).

(** A [for] loop around a [while] loop around a declaration. *)
Definition nested_loops : CXCursor :=
  mkCursor CXCursor_ForStmt EmptyString
    [ mkCursor CXCursor_WhileStmt EmptyString
        [ mkCursor CXCursor_VarDecl "i" [] ] ].

(** The metrics that [visitor] leaves when it has run on [c] from [m]. *)
Definition metrics_after (c parent : CXCursor) (m : Metrics) : Metrics :=
  match visitor c parent m with
  | Ok (_, m') => m'
  | Undef _ => m
  end.

(** A file without any declaration. *)
Definition empty_unit : CXTranslationUnit :=
  {| tuSpelling := "empty.c"; tuDecls := [] |}.

Definition empty_env : Env :=
  {| argv0 := "analyzer";
     args := ["empty.c"];
     fopen_w := fun _ => true;
     clang_parseTranslationUnit := fun _ => Some empty_unit;
     system := fun _ => 1 |}.


(** The records are those of the tree of [c], numbered in pre-order from 0:
    one node per cursor, one edge per cursor and child, and so every node
    but the first, which is [c] itself, is the end of exactly one edge. *)
Definition graph_of_tree (c : CXCursor)
    (nodes : list (Z * string)) (edges : list (Z * Z)) : Prop :=
  same_shape c (number 0 c)
  /\ nodes = nodes_of (number 0 c)
  /\ edges = edges_of (number 0 c)
  /\ map snd edges = seqZ 1 (Z.of_nat (length nodes) - 1).

(** [void f(void) { int x; if (..) for (..) for (..) ; }]: one function and
    nothing beside it. *)
Definition one_function : CXCursor :=
  mkCursor CXCursor_FunctionDecl "f"
    [ mkCursor CXCursor_CompoundStmt EmptyString
        [ mkCursor CXCursor_DeclStmt EmptyString
            [ mkCursor CXCursor_VarDecl "x" [] ];
          mkCursor CXCursor_IfStmt EmptyString
            [ mkCursor CXCursor_ForStmt EmptyString
                [ mkCursor CXCursor_ForStmt EmptyString [] ] ] ] ].

Definition one_function_unit : CXTranslationUnit :=
  {| tuSpelling := "one.c"; tuDecls := [one_function] |}.

(** The metrics at the end of the traversal of [unit], when it completes. *)
Definition traversed (unit : CXTranslationUnit) : Metrics :=
  match traverse unit with
  | Ok m => m
  | Undef _ => initial_metrics []
  end.

(** ** The unfolding of [visitor] *)

Lemma walk_unfold (current : CXCursor) (m : Metrics) :
  walk visitor current m = visit_all current (cursorChildren current) m.
Proof. destruct current; reflexivity. Qed.

(** Case analysis on the first computation of a chain of binds. *)
Ltac bind_head t :=
  lazymatch t with
  | mbind _ ?r => bind_head r
  | (if ?b then _ else _) => b
  | (let '(_, _) := ?p in _) => p
  | _ => t
  end.

Ltac split_binds :=
  repeat first
    [ reflexivity
    | progress cbn [mbind result_bind]
    | rewrite walk_unfold; cbn [cursorChildren]
    | match goal with
      | |- ?l = _ =>
          let h := bind_head l in
          lazymatch h with
          | Ok _ => fail
          | Undef _ => fail
          | _ => destruct h
          end
      end ].

Lemma visitor_unfold (current parent : CXCursor) (m : Metrics) :
  visitor current parent m =
    m1 ← enter current m;
    '(_, m2) ← visit_all current (cursorChildren current) m1;
    leave current m2.
Proof.
  destruct current as [kind spelling children].
  unfold enter, leave.
  cbn [visitor clang_getCursorKind clang_getCursorSpelling cursorChildren].
  unfold clang_visitChildren.
  split_binds.
Qed.

(** ** Runs that stay inside what C defines *)

Lemma int_add_ok (x y : Z) :
  INT_MIN <= x + y <= INT_MAX -> int_add x y = Ok (x + y).
Proof.
  intros H. unfold int_add.
  destruct (Z.leb_spec INT_MIN (x + y)); [|lia].
  destruct (Z.leb_spec (x + y) INT_MAX); [reflexivity|lia].
Qed.

Lemma array_store_ok (a : list Z) (i v : Z) :
  0 <= i < Z.of_nat (length a) ->
  array_store a i v = Ok (<[Z.to_nat i := v]> a).
Proof.
  intros H. unfold array_store.
  destruct (Z.leb_spec 0 i); [|lia].
  destruct (Z.ltb_spec i (Z.of_nat (length a))); [reflexivity|lia].
Qed.

Lemma array_store_out (a : list Z) (i v : Z) :
  Z.of_nat (length a) <= i -> array_store a i v = Undef (OutOfBounds i).
Proof.
  intros H. unfold array_store.
  destruct (Z.ltb_spec i (Z.of_nat (length a))); [lia|].
  now rewrite andb_false_r.
Qed.

Lemma array_load_ok (a : list Z) (i : Z) :
  0 <= i < Z.of_nat (length a) ->
  exists v, a !! Z.to_nat i = Some v /\ array_load a i = Ok v.
Proof.
  intros H. unfold array_load.
  destruct (Z.leb_spec 0 i); [|lia].
  destruct (lookup_lt_is_Some_2 a (Z.to_nat i)) as [v Hv]; [lia|].
  exists v. now rewrite Hv.
Qed.

Ltac unfold_setters :=
  unfold fprintf_dot, set_nodeCounter, set_stackTop, set_nodeStack,
    set_cyclomatic, set_varDeclCount, set_currentLoopDepth, set_maxLoopDepth;
  cbn [cyclomatic varDeclCount currentLoopDepth maxLoopDepth dotFile
       nodeCounter nodeStack stackTop mbind result_bind].

Lemma enter_ok (c : CXCursor) (m : Metrics) (n h : Z) :
  fits m n h -> 1 <= n -> 1 <= h -> enter c m = Ok (entered c m).
Proof.
  intros [Hcap Htop Hctr Hcyc Hvar Hcur] Hn Hh.
  assert (Hmin : INT_MIN = -2147483648) by reflexivity.
  unfold enter, entered, top_id, is_var_decl, b2z.
  rewrite int_add_ok by lia. unfold_setters.
  assert (Hedge :
    (if 0 <? stackTop m then
       array_load (nodeStack m) (stackTop m - 1) ≫= fun parentId =>
         Ok (mkMetrics (cyclomatic m) (varDeclCount m) (currentLoopDepth m)
               (maxLoopDepth m)
               ((dotFile m ++ [DotNode (nodeCounter m) (clang_getCursorSpelling c)])
                  ++ [DotEdge parentId (nodeCounter m)])
               (nodeCounter m + 1) (nodeStack m) (stackTop m))
     else
       Ok (mkMetrics (cyclomatic m) (varDeclCount m) (currentLoopDepth m)
             (maxLoopDepth m)
             (dotFile m ++ [DotNode (nodeCounter m) (clang_getCursorSpelling c)])
             (nodeCounter m + 1) (nodeStack m) (stackTop m)))
    = Ok (mkMetrics (cyclomatic m) (varDeclCount m) (currentLoopDepth m)
            (maxLoopDepth m)
            (dotFile m ++ DotNode (nodeCounter m) (clang_getCursorSpelling c)
               :: match (if 0 <? stackTop m
                         then nodeStack m !! Z.to_nat (stackTop m - 1)
                         else None) with
                  | Some p => [DotEdge p (nodeCounter m)]
                  | None => []
                  end)
            (nodeCounter m + 1) (nodeStack m) (stackTop m))).
  { destruct (Z.ltb_spec 0 (stackTop m)); [|reflexivity].
    destruct (array_load_ok (nodeStack m) (stackTop m - 1)) as (v & Hv & ->); [lia|].
    rewrite Hv. cbn [mbind result_bind]. now rewrite <- app_assoc. }
  rewrite Hedge. clear Hedge. unfold_setters.
  rewrite array_store_ok by lia. unfold_setters.
  rewrite (int_add_ok (stackTop m) 1) by lia. unfold_setters.
  destruct (is_decision (clang_getCursorKind c));
    [rewrite (int_add_ok (cyclomatic m) 1) by lia|]; unfold_setters;
  (destruct (bool_decide (clang_getCursorKind c = CXCursor_VarDecl));
    [rewrite (int_add_ok (varDeclCount m) 1) by lia|]); unfold_setters;
  (destruct (is_loop (clang_getCursorKind c));
    [rewrite (int_add_ok (currentLoopDepth m) 1) by lia; unfold_setters;
     destruct (Z.ltb_spec (maxLoopDepth m) (currentLoopDepth m + 1))|]);
  do 2 f_equal; lia.
Qed.

Lemma leave_ok (c : CXCursor) (m : Metrics) :
  0 <= currentLoopDepth m <= INT_MAX -> 1 <= stackTop m <= INT_MAX ->
  leave c m = Ok (CXChildVisit_Continue, left c m).
Proof.
  intros Hcur Htop.
  assert (Hmin : INT_MIN = -2147483648) by reflexivity.
  unfold leave, left, b2z.
  destruct (is_loop (clang_getCursorKind c));
    [rewrite (int_add_ok (currentLoopDepth m) (-1)) by lia|];
    unfold_setters;
    rewrite (int_add_ok (stackTop m) (-1)) by lia; unfold_setters;
    do 3 f_equal; lia.
Qed.

(** *** Sizes and counts of forests *)

Lemma total_cons (c : CXCursor) (cs : list CXCursor) :
  total (c :: cs) = 1 + total (cursorChildren c) + total cs.
Proof.
  unfold total. destruct c as [k l ch].
  cbn [flat_map preorder cursorChildren]. rewrite length_app. cbn [length]. lia.
Qed.

Lemma size_total (c : CXCursor) : size c = 1 + total (cursorChildren c).
Proof. unfold size, total. destruct c. cbn [preorder length cursorChildren]. lia. Qed.

Lemma total_nonneg (cs : list CXCursor) : 0 <= total cs.
Proof. unfold total. lia. Qed.

Lemma depth_levels (c : CXCursor) : depth c = levels (cursorChildren c).
Proof. destruct c. reflexivity. Qed.

Lemma levels_cons (c : CXCursor) (cs : list CXCursor) :
  levels (c :: cs) = Z.max (1 + levels (cursorChildren c)) (levels cs).
Proof. unfold levels at 1. cbn [map foldr]. now rewrite depth_levels. Qed.

Lemma levels_nonneg (cs : list CXCursor) : 0 <= levels cs.
Proof. unfold levels. induction cs; cbn [map foldr]; lia. Qed.

Lemma count_app (p : CXCursorKind -> bool) (l1 l2 : list CXCursor) :
  count p (l1 ++ l2) = count p l1 + count p l2.
Proof. unfold count. rewrite List.filter_app, length_app. lia. Qed.

Lemma count_cons (p : CXCursorKind -> bool) (c : CXCursor) (cs : list CXCursor) :
  count p (flat_map preorder (c :: cs)) =
    b2z (p (clang_getCursorKind c))
    + count p (flat_map preorder (cursorChildren c))
    + count p (flat_map preorder cs).
Proof.
  destruct c as [k l ch]. cbn [flat_map preorder cursorChildren clang_getCursorKind].
  rewrite count_app. f_equal.
  unfold count, b2z. cbn [List.filter clang_getCursorKind].
  destruct (p k); cbn [length]; lia.
Qed.

Lemma count_bounds (p : CXCursorKind -> bool) (cs : list CXCursor) :
  0 <= count p (flat_map preorder cs) <= total cs.
Proof.
  unfold count, total. split; [lia|].
  apply inj_le, List.filter_length_le.
Qed.

Lemma lines_of_unfold (parent : option Z) (next : Z) (c : CXCursor) :
  lines_of parent next c =
    DotNode next (clang_getCursorSpelling c)
    :: match parent with Some p => [DotEdge p next] | None => [] end
    ++ lines_of_forest (Some next) (next + 1) (cursorChildren c).
Proof.
  destruct c as [k l ch]. cbn [lines_of clang_getCursorSpelling cursorChildren].
  do 2 f_equal. generalize (next + 1).
  induction ch as [|c' ch IH]; intros n; [reflexivity|].
  cbn [lines_of_forest]. now rewrite IH.
Qed.

Lemma loop_depths_cons (e : Z) (c : CXCursor) (cs : list CXCursor) :
  flat_map (loop_depths e) (c :: cs) =
    (if is_loop (clang_getCursorKind c) then [e + 1] else [])
    ++ flat_map (loop_depths (e + b2z (is_loop (clang_getCursorKind c))))
         (cursorChildren c)
    ++ flat_map (loop_depths e) cs.
Proof.
  destruct c as [k l ch].
  cbn [flat_map loop_depths clang_getCursorKind cursorChildren].
  unfold b2z. destruct (is_loop k); rewrite ?Z.add_0_r, <- ?app_assoc; reflexivity.
Qed.

Lemma effect_nil (m : Metrics) : effect [] m m.
Proof.
  split; cbn [flat_map lines_of_forest fold_left]; rewrite ?app_nil_r;
    try reflexivity; unfold count, total; cbn; lia.
Qed.

Lemma top_id_entered (c : CXCursor) (m : Metrics) :
  0 <= stackTop m < Z.of_nat (length (nodeStack m)) ->
  top_id (entered c m) = Some (nodeCounter m).
Proof.
  intros H. unfold top_id, entered. cbn [stackTop nodeStack].
  destruct (Z.ltb_spec 0 (stackTop m + 1)); [|lia].
  replace (stackTop m + 1 - 1) with (stackTop m) by lia.
  apply list_lookup_insert_eq. lia.
Qed.

Lemma effect_cons (c : CXCursor) (cs : list CXCursor) (m m2 m' : Metrics) :
  0 <= stackTop m < Z.of_nat (length (nodeStack m)) ->
  effect (cursorChildren c) (entered c m) m2 ->
  effect cs (left c m2) m' ->
  effect (c :: cs) m m'.
Proof.
  intros Htop [C1 V1 L1 M1 D1 N1 T1 S1 B1] [C2 V2 L2 M2 D2 N2 T2 S2 B2].
  cbn [left entered cyclomatic varDeclCount currentLoopDepth maxLoopDepth
       dotFile nodeCounter nodeStack stackTop] in *.
  assert (Hbelow : forall i : nat, (i < Z.to_nat (stackTop m))%nat ->
            nodeStack m2 !! i = nodeStack m !! i).
  { intros i Hi. rewrite B1 by lia. apply list_lookup_insert_ne. lia. }
  assert (Hparent : top_id (left c m2) = top_id m).
  { unfold top_id, left. cbn [stackTop nodeStack]. rewrite T1.
    replace (stackTop m + 1 - 1) with (stackTop m) by lia.
    destruct (Z.ltb_spec 0 (stackTop m)); [|reflexivity].
    apply Hbelow. lia. }
  split.
  - rewrite C2, C1, count_cons. lia.
  - rewrite V2, V1, count_cons. lia.
  - rewrite L2, L1. lia.
  - rewrite M2, M1, L1, loop_depths_cons, !fold_left_app.
    replace (currentLoopDepth m + b2z (is_loop (clang_getCursorKind c))
             - b2z (is_loop (clang_getCursorKind c)))
      with (currentLoopDepth m) by lia.
    destruct (is_loop (clang_getCursorKind c)); reflexivity.
  - rewrite D2, D1, Hparent, N1, top_id_entered by lia.
    cbn [lines_of_forest]. rewrite lines_of_unfold, size_total.
    rewrite <- !app_assoc. cbn [app].
    replace (nodeCounter m + 1 + total (cursorChildren c))
      with (nodeCounter m + (1 + total (cursorChildren c))) by lia.
    destruct (top_id m); reflexivity.
  - rewrite N2, N1, total_cons. lia.
  - rewrite T2, T1. lia.
  - rewrite S2, S1. apply length_insert.
  - intros i Hi. rewrite B2 by lia. now apply Hbelow.
Qed.

Lemma fits_weaken (m : Metrics) (n h n' h' : Z) :
  fits m n h -> n' <= n -> h' <= h -> fits m n' h'.
Proof. intros [Hcap Htop Hctr Hcyc Hvar Hcur] Hn Hh. split; lia. Qed.

Lemma fits_raise (m : Metrics) (n h : Z) :
  fits m n 0 -> stackTop m + h <= Z.of_nat (length (nodeStack m)) -> fits m n h.
Proof. intros [Hcap Htop Hctr Hcyc Hvar Hcur] Hh. split; lia. Qed.

Lemma fits_entered (c : CXCursor) (m : Metrics) (n h : Z) :
  fits m n h -> 1 <= n -> 1 <= h -> fits (entered c m) (n - 1) (h - 1).
Proof.
  intros [Hcap Htop Hctr Hcyc Hvar Hcur] Hn Hh.
  split; cbn [entered cyclomatic varDeclCount currentLoopDepth nodeCounter
              nodeStack stackTop]; rewrite ?length_insert; unfold b2z;
    repeat match goal with |- context [if ?b then _ else _] => destruct b end;
    lia.
Qed.

Lemma fits_left (c : CXCursor) (m m2 : Metrics) (n h : Z) :
  fits m n h -> 1 + total (cursorChildren c) <= n -> 1 <= h ->
  effect (cursorChildren c) (entered c m) m2 ->
  fits (left c m2) (n - 1 - total (cursorChildren c)) h.
Proof.
  intros [Hcap Htop Hctr Hcyc Hvar Hcur] Hn Hh [C1 V1 L1 M1 D1 N1 T1 S1 B1].
  pose proof (count_bounds is_decision (cursorChildren c)).
  pose proof (count_bounds is_var_decl (cursorChildren c)).
  cbn [entered cyclomatic varDeclCount currentLoopDepth nodeCounter
       nodeStack stackTop] in *.
  rewrite length_insert in S1.
  split; cbn [left cyclomatic varDeclCount currentLoopDepth nodeCounter
              nodeStack stackTop]; rewrite ?S1, ?C1, ?V1, ?L1, ?N1, ?T1;
    unfold b2z in *;
    repeat match goal with |- context [if ?b then _ else _] => destruct b end;
    lia.
Qed.

Lemma visit_all_cons (parent c : CXCursor) (cs : list CXCursor) (m m1 : Metrics) :
  visitor c parent m = Ok (CXChildVisit_Continue, m1) ->
  visit_all parent (c :: cs) m = visit_all parent cs m1.
Proof.
  intros H. unfold visit_all. cbn [visit_siblings].
  rewrite H. reflexivity.
Qed.

Lemma visit_all_undef (parent c : CXCursor) (cs : list CXCursor) (m : Metrics)
    (u : Undefined) :
  visitor c parent m = Undef u -> visit_all parent (c :: cs) m = Undef u.
Proof.
  intros H. unfold visit_all. cbn [visit_siblings].
  rewrite H. reflexivity.
Qed.

Lemma visit_all_ok (parent : CXCursor) (cs : list CXCursor) :
  Forall visits_well cs ->
  forall (m : Metrics) (n h : Z),
    fits m n h -> total cs <= n -> levels cs <= h ->
    exists m', visit_all parent cs m = Ok (true, m') /\ effect cs m m'.
Proof.
  induction 1 as [|c cs Hc _ IH]; intros m n h Hfits Hn Hh.
  - exists m. split; [reflexivity | apply effect_nil].
  - rewrite total_cons in Hn. rewrite levels_cons in Hh.
    pose proof (total_nonneg cs). pose proof (total_nonneg (cursorChildren c)).
    pose proof (levels_nonneg (cursorChildren c)).
    destruct (Hc parent m n h Hfits) as (m2 & Hrun & Heff); [lia..|].
    destruct (IH (left c m2) (n - 1 - total (cursorChildren c)) h)
      as (m' & Hrest & Heff'); [|lia..|].
    { apply (fits_left c m m2 n h); [assumption|lia..|assumption]. }
    exists m'. split.
    + rewrite (visit_all_cons _ _ _ _ _ Hrun). exact Hrest.
    + apply (effect_cons c cs m m2 m'); [|assumption..].
      destruct Hfits as [_ Htop _ _ _ _]. lia.
Qed.

Lemma visitor_ok (c : CXCursor) : visits_well c.
Proof.
  induction c as [kind spelling children IH] using CXCursor_ind.
  intros parent m n h Hfits Hn Hh.
  set (c := mkCursor kind spelling children) in *.
  pose proof (total_nonneg (cursorChildren c)).
  pose proof (levels_nonneg (cursorChildren c)).
  assert (Hin : fits (entered c m) (n - 1) (h - 1)) by (apply fits_entered; [assumption|lia..]).
  destruct (visit_all_ok c children IH (entered c m) _ _ Hin) as (m2 & Hrun & Heff);
    [change children with (cursorChildren c); lia..|].
  exists m2. split; [|exact Heff].
  rewrite visitor_unfold.
  rewrite (enter_ok c m n h Hfits) by lia.
  cbn [mbind result_bind].
  change (cursorChildren c) with children. rewrite Hrun.
  cbn [mbind result_bind].
  destruct Hfits as [Hcap Htop Hctr Hcyc Hvar Hcur].
  destruct Heff as [_ _ L1 _ _ _ T1 _ _].
  cbn [entered currentLoopDepth stackTop] in L1, T1.
  apply leave_ok; rewrite ?L1, ?T1; unfold b2z;
    destruct (is_loop (clang_getCursorKind c)); lia.
Qed.

(** *** The visitor runs off the stack wherever the tree is too deep *)

Lemma enter_out (c : CXCursor) (m : Metrics) (n : Z) :
  fits m n 0 -> 1 <= n ->
  stackTop m = Z.of_nat (length (nodeStack m)) ->
  enter c m = Undef (OutOfBounds (Z.of_nat (length (nodeStack m)))).
Proof.
  intros [Hcap Htop Hctr Hcyc Hvar Hcur] Hn Hfull.
  assert (Hmin : INT_MIN = -2147483648) by reflexivity.
  unfold enter.
  rewrite int_add_ok by lia. unfold_setters.
  destruct (Z.ltb_spec 0 (stackTop m)).
  - destruct (array_load_ok (nodeStack m) (stackTop m - 1)) as (v & _ & ->); [lia|].
    unfold_setters. rewrite array_store_out by lia. now rewrite Hfull.
  - unfold_setters. rewrite array_store_out by lia. now rewrite Hfull.
Qed.

Lemma visit_all_out (parent : CXCursor) (cs : list CXCursor) :
  Forall overruns cs ->
  forall (m : Metrics) (n : Z),
    fits m n 0 -> total cs <= n ->
    Z.of_nat (length (nodeStack m)) < stackTop m + levels cs ->
    visit_all parent cs m = Undef (OutOfBounds (Z.of_nat (length (nodeStack m)))).
Proof.
  induction 1 as [|c cs Hc _ IH]; intros m n Hfits Hn Hdeep.
  - destruct Hfits as [_ Htop _ _ _ _]. unfold levels in Hdeep.
    cbn [map foldr] in Hdeep. lia.
  - rewrite total_cons in Hn. rewrite levels_cons in Hdeep.
    pose proof (total_nonneg cs). pose proof (total_nonneg (cursorChildren c)).
    pose proof (levels_nonneg (cursorChildren c)).
    destruct (Z.lt_ge_cases (Z.of_nat (length (nodeStack m)))
                (stackTop m + 1 + levels (cursorChildren c))) as [Hhere|Hhere].
    + apply visit_all_undef. apply (Hc parent m n); [assumption|lia..].
    + set (h := 1 + levels (cursorChildren c)).
      assert (Hfits' : fits m n h) by (apply fits_raise; [assumption|lia]).
      destruct (visitor_ok c parent m n h Hfits') as (m2 & Hrun & Heff); [lia..|].
      rewrite (visit_all_cons _ _ _ _ _ Hrun).
      pose proof (fits_left c m m2 n h Hfits' ltac:(lia) ltac:(lia) Heff) as Hleft.
      destruct Heff as [_ _ _ _ _ _ T1 S1 _].
      cbn [entered stackTop nodeStack] in T1, S1. rewrite length_insert in S1.
      rewrite <- S1.
      apply (IH (left c m2) (n - 1 - total (cursorChildren c)));
        [eapply fits_weaken; [exact Hleft|lia..] | lia |].
      cbn [left stackTop nodeStack]. rewrite S1, T1. lia.
Qed.

Lemma visitor_out (c : CXCursor) : overruns c.
Proof.
  induction c as [kind spelling children IH] using CXCursor_ind.
  intros parent m n Hfits Hn Hdeep.
  set (c := mkCursor kind spelling children) in *.
  pose proof (total_nonneg (cursorChildren c)).
  rewrite visitor_unfold.
  destruct (Z.eq_dec (stackTop m) (Z.of_nat (length (nodeStack m)))) as [Hfull|Hroom].
  - rewrite (enter_out c m n) by (assumption || lia). reflexivity.
  - assert (Hfits' : fits m n 1).
    { apply fits_raise; [assumption|]. destruct Hfits as [_ Htop _ _ _ _]. lia. }
    rewrite (enter_ok c m n 1 Hfits') by lia.
    cbn [mbind result_bind].
    change (cursorChildren c) with children.
    rewrite (visit_all_out c children IH (entered c m) (n - 1)).
    + cbn [entered nodeStack]. now rewrite length_insert.
    + replace 0 with (1 - 1) by lia. apply fits_entered; [assumption|lia..].
    + change children with (cursorChildren c). lia.
    + cbn [entered nodeStack stackTop]. rewrite length_insert.
      change children with (cursorChildren c). lia.
Qed.

(** *** What a completed run has done *)

Lemma bind_ok {A B : Type} (r : result A) (k : A -> result B) (b : B) :
  r ≫= k = Ok b -> exists a, r = Ok a /\ k a = Ok b.
Proof. destruct r as [a|u]; [|discriminate]. intros H. now exists a. Qed.

Lemma int_add_inv (x y r : Z) :
  int_add x y = Ok r -> r = x + y /\ INT_MIN <= x + y <= INT_MAX.
Proof.
  unfold int_add.
  destruct (Z.leb_spec INT_MIN (x + y)); [|discriminate].
  destruct (Z.leb_spec (x + y) INT_MAX); [|discriminate].
  intros [= <-]. lia.
Qed.

Lemma array_store_inv (a : list Z) (i v : Z) (a' : list Z) :
  array_store a i v = Ok a' ->
  a' = <[Z.to_nat i := v]> a /\ 0 <= i < Z.of_nat (length a).
Proof.
  unfold array_store.
  destruct (Z.leb_spec 0 i); [|discriminate].
  destruct (Z.ltb_spec i (Z.of_nat (length a))); [|discriminate].
  intros [= <-]. split; [reflexivity|lia].
Qed.

Lemma array_load_inv (a : list Z) (i v : Z) :
  array_load a i = Ok v -> a !! Z.to_nat i = Some v.
Proof.
  unfold array_load.
  destruct (0 <=? i); [|discriminate].
  destruct (a !! Z.to_nat i); [|discriminate].
  now intros [= <-].
Qed.

Lemma bind_assoc {A B C : Type} (r : result A) (f : A -> result B) (g : B -> result C) :
  (r ≫= f) ≫= g = r ≫= (fun a => f a ≫= g).
Proof. destruct r; reflexivity. Qed.

(** Take the first computation off a chain of binds known to succeed. *)
Tactic Notation "bind_step" hyp(H) "as" ident(a) ident(E) :=
  rewrite ?bind_assoc in H; apply bind_ok in H as (a & E & H).

(** The same when the computation is an [int_add]. *)
Ltac add_step H :=
  let r := fresh "r" in
  let E := fresh "E" in
  rewrite ?bind_assoc in H;
  apply bind_ok in H as (r & E & H);
  apply int_add_inv in E as [-> _];
  revert H; unfold_setters; intros H.

Lemma enter_inv (c : CXCursor) (m m1 : Metrics) :
  enter c m = Ok m1 ->
  m1 = entered c m /\ 0 <= stackTop m < Z.of_nat (length (nodeStack m)).
Proof.
  unfold enter. intros H.
  add_step H.
  bind_step H as m0 Hedge.
  assert (m0 = mkMetrics (cyclomatic m) (varDeclCount m)
            (currentLoopDepth m) (maxLoopDepth m)
            (dotFile m ++ DotNode (nodeCounter m) (clang_getCursorSpelling c)
               :: match top_id m with
                  | Some p => [DotEdge p (nodeCounter m)]
                  | None => []
                  end)
            (nodeCounter m + 1) (nodeStack m) (stackTop m)) as ->.
  { revert Hedge. unfold top_id.
    destruct (0 <? stackTop m).
    - intros Hedge. bind_step Hedge as v Hload.
      apply array_load_inv in Hload. rewrite Hload.
      injection Hedge as <-. now rewrite <- app_assoc.
    - now intros [= <-]. }
  clear Hedge. revert H. unfold_setters. intros H.
  bind_step H as stack Hstore. apply array_store_inv in Hstore as [-> Htop].
  add_step H.
  split; [|exact Htop].
  unfold entered, is_var_decl, b2z.
  destruct (is_decision (clang_getCursorKind c));
    destruct (bool_decide (clang_getCursorKind c = CXCursor_VarDecl));
    destruct (is_loop (clang_getCursorKind c));
    revert H; unfold_setters; intros H;
    repeat add_step H;
    try destruct (Z.ltb_spec (maxLoopDepth m) (currentLoopDepth m + 1));
    injection H as <-; f_equal; lia.
Qed.

Lemma leave_inv (c : CXCursor) (m : Metrics) (r : CXChildVisitResult) (m' : Metrics) :
  leave c m = Ok (r, m') -> r = CXChildVisit_Continue /\ m' = left c m.
Proof.
  unfold leave, left, b2z. intros H.
  destruct (is_loop (clang_getCursorKind c));
    revert H; unfold_setters; intros H;
    repeat add_step H;
    injection H as <- <-; (split; [reflexivity|f_equal; lia]).
Qed.

Lemma visit_all_inv (parent : CXCursor) (cs : list CXCursor) :
  Forall visits_right cs ->
  forall (m : Metrics) (go_on : bool) (m' : Metrics),
    visit_all parent cs m = Ok (go_on, m') -> go_on = true /\ effect cs m m'.
Proof.
  induction 1 as [|c cs Hc _ IH]; intros m go_on m' Hrun.
  - injection Hrun as <- <-. split; [reflexivity | apply effect_nil].
  - unfold visit_all in Hrun. cbn [visit_siblings] in Hrun.
    bind_step Hrun as answer Hc1. destruct answer as [r m1].
    destruct (Hc parent m r m1 Hc1) as (-> & Htop & m2 & -> & Heff).
    cbn [mbind result_bind] in Hrun.
    destruct (IH (left c m2) go_on m' Hrun) as [-> Heff'].
    split; [reflexivity|].
    now apply (effect_cons c cs m m2 m').
Qed.

Lemma visitor_inv (c : CXCursor) : visits_right c.
Proof.
  induction c as [kind spelling children IH] using CXCursor_ind.
  intros parent m r m' Hrun.
  set (c := mkCursor kind spelling children) in *.
  rewrite visitor_unfold in Hrun.
  bind_step Hrun as m1 Henter. apply enter_inv in Henter as [-> Htop].
  bind_step Hrun as swept Hsweep. destruct swept as [go_on m2].
  apply (visit_all_inv c children IH) in Hsweep as [_ Heff].
  apply leave_inv in Hrun as [-> ->].
  split; [reflexivity|]. split; [exact Htop|].
  now exists m2.
Qed.

(** ** Forests *)

(** Induction on forests: the empty forest, and a first tree with the
    forests below it and beside it. *)
Lemma forest_ind (P : list CXCursor -> Prop) :
  P [] ->
  (forall c cs, P (cursorChildren c) -> P cs -> P (c :: cs)) ->
  forall cs, P cs.
Proof.
  intros Hnil Hcons.
  assert (Hbelow : forall c, P (cursorChildren c)).
  { induction c as [kind spelling children IH] using CXCursor_ind.
    cbn [cursorChildren]. induction IH as [|c cs Hc _ IHcs]; auto. }
  induction cs as [|c cs IH]; auto.
Qed.

Lemma number_unfold (next : Z) (c : CXCursor) :
  number next c =
    IdNode next (clang_getCursorSpelling c)
      (number_forest (next + 1) (cursorChildren c)).
Proof. destruct c; reflexivity. Qed.

Lemma lines_of_forest_cons (parent : option Z) (next : Z) (c : CXCursor)
    (cs : list CXCursor) :
  lines_of_forest parent next (c :: cs) =
    DotNode next (clang_getCursorSpelling c)
    :: match parent with Some p => [DotEdge p next] | None => [] end
    ++ lines_of_forest (Some next) (next + 1) (cursorChildren c)
    ++ lines_of_forest parent (next + 1 + total (cursorChildren c)) cs.
Proof.
  cbn [lines_of_forest]. rewrite lines_of_unfold, size_total.
  rewrite Z.add_assoc. cbn [app]. now rewrite <- app_assoc.
Qed.

Lemma number_forest_cons (next : Z) (c : CXCursor) (cs : list CXCursor) :
  number_forest next (c :: cs) =
    IdNode next (clang_getCursorSpelling c)
      (number_forest (next + 1) (cursorChildren c))
    :: number_forest (next + 1 + total (cursorChildren c)) cs.
Proof.
  cbn [number_forest]. now rewrite number_unfold, size_total, Z.add_assoc.
Qed.

Lemma node_records_app (l1 l2 : list DotLine) :
  node_records (l1 ++ l2) = node_records l1 ++ node_records l2.
Proof. apply flat_map_app. Qed.

Lemma edge_records_app (l1 l2 : list DotLine) :
  edge_records (l1 ++ l2) = edge_records l1 ++ edge_records l2.
Proof. apply flat_map_app. Qed.

Lemma node_records_lines (cs : list CXCursor) :
  forall (parent : option Z) (next : Z),
    node_records (lines_of_forest parent next cs)
    = flat_map nodes_of (number_forest next cs).
Proof.
  induction cs as [|c cs IHc IHcs] using forest_ind; intros parent next;
    [reflexivity|].
  rewrite lines_of_forest_cons, number_forest_cons.
  cbn [flat_map nodes_of id_of label_of subtrees].
  change (node_records (DotNode next (clang_getCursorSpelling c) :: ?l))
    with ((next, clang_getCursorSpelling c) :: node_records l).
  rewrite !node_records_app, IHc, IHcs.
  destruct parent; reflexivity.
Qed.

Lemma edge_records_lines (cs : list CXCursor) :
  forall (parent : option Z) (next : Z),
    edge_records (lines_of_forest parent next cs)
    = flat_map (fun t => edge_from parent t ++ edges_of t) (number_forest next cs).
Proof.
  induction cs as [|c cs IHc IHcs] using forest_ind; intros parent next;
    [reflexivity|].
  rewrite lines_of_forest_cons, number_forest_cons.
  cbn [flat_map edges_of id_of label_of subtrees].
  change (edge_records (DotNode next (clang_getCursorSpelling c) :: ?l))
    with (edge_records l).
  rewrite !edge_records_app, IHc, IHcs, <- app_assoc.
  destruct parent; reflexivity.
Qed.

Lemma node_ids_forest (cs : list CXCursor) :
  forall next : Z,
    map fst (flat_map nodes_of (number_forest next cs)) = seqZ next (total cs).
Proof.
  induction cs as [|c cs IHc IHcs] using forest_ind; intros next; [reflexivity|].
  pose proof (total_nonneg cs). pose proof (total_nonneg (cursorChildren c)).
  rewrite number_forest_cons, total_cons.
  cbn [flat_map nodes_of id_of label_of subtrees].
  rewrite <- app_comm_cons, map_cons, map_app, IHc, IHcs. cbn [fst].
  rewrite (seqZ_cons next) by lia.
  replace (Z.pred (1 + total (cursorChildren c) + total cs))
    with (total (cursorChildren c) + total cs) by lia.
  rewrite seqZ_app by lia.
  replace (Z.succ next) with (next + 1) by lia. reflexivity.
Qed.

Lemma node_labels_forest (cs : list CXCursor) :
  forall next : Z,
    map snd (flat_map nodes_of (number_forest next cs))
    = map clang_getCursorSpelling (flat_map preorder cs).
Proof.
  induction cs as [|c cs IHc IHcs] using forest_ind; intros next; [reflexivity|].
  rewrite number_forest_cons. destruct c as [k l ch].
  cbn [flat_map nodes_of preorder id_of label_of subtrees
       clang_getCursorSpelling cursorChildren] in *.
  rewrite <- !app_comm_cons, !map_cons, !map_app, IHc, IHcs. reflexivity.
Qed.

Lemma same_shape_forest (cs : list CXCursor) :
  forall next : Z, Forall2 same_shape cs (number_forest next cs).
Proof.
  induction cs as [|c cs IHc IHcs] using forest_ind; intros next;
    [constructor|].
  rewrite number_forest_cons. destruct c as [k l ch].
  constructor; [|apply IHcs].
  constructor. apply IHc.
Qed.

Lemma edge_count_lines (cs : list CXCursor) :
  forall (parent : option Z) (next : Z),
    Z.of_nat (length (edge_records (lines_of_forest parent next cs)))
    = total cs - match parent with
                 | Some _ => 0
                 | None => Z.of_nat (length cs)
                 end.
Proof.
  induction cs as [|c cs IHc IHcs] using forest_ind; intros parent next.
  - destruct parent; reflexivity.
  - rewrite lines_of_forest_cons, total_cons.
    change (edge_records (DotNode next (clang_getCursorSpelling c) :: ?l))
      with (edge_records l).
    rewrite !edge_records_app, !length_app, !Nat2Z.inj_add, IHc, IHcs.
    destruct parent; cbn [edge_records flat_map app length]; lia.
Qed.

Lemma node_count_lines (cs : list CXCursor) (parent : option Z) (next : Z) :
  Z.of_nat (length (node_records (lines_of_forest parent next cs))) = total cs.
Proof.
  rewrite <- (length_map fst), node_records_lines, node_ids_forest, length_seqZ.
  pose proof (total_nonneg cs). lia.
Qed.

(** ** The run that [main] starts *)

Lemma stack_size_Z : Z.of_nat STACK_SIZE = 1024.
Proof. reflexivity. Qed.

Lemma fits_initial (stream : list DotLine) (n h : Z) :
  0 <= n < INT_MAX -> h <= 1024 -> fits (initial_metrics stream) n h.
Proof.
  intros Hn Hh.
  assert (Hmax : INT_MAX = 2147483647) by reflexivity.
  split; cbn [initial_metrics cyclomatic varDeclCount currentLoopDepth
              nodeCounter nodeStack stackTop];
    rewrite ?length_replicate, ?stack_size_Z; lia.
Qed.

Lemma traverse_unfold (unit : CXTranslationUnit) :
  traverse unit =
    '(_, m) ← visit_all (clang_getTranslationUnitCursor unit) (tuDecls unit)
                (initial_metrics [DotOpen]);
    Ok m.
Proof.
  unfold traverse, clang_visitChildren. rewrite walk_unfold.
  cbn [clang_getTranslationUnitCursor cursorChildren].
  destruct (visit_all _ _ _) as [[go_on m]|u]; reflexivity.
Qed.

Lemma traverse_ok (unit : CXTranslationUnit) :
  in_range unit ->
  exists m, traverse unit = Ok m
            /\ effect (tuDecls unit) (initial_metrics [DotOpen]) m.
Proof.
  intros [Hdepth Hsize].
  rewrite depth_levels in Hdepth. unfold visited in Hsize.
  cbn [clang_getTranslationUnitCursor cursorChildren] in Hdepth, Hsize.
  pose proof (total_nonneg (tuDecls unit)) as Hnn. unfold total in Hnn.
  destruct (visit_all_ok (clang_getTranslationUnitCursor unit) (tuDecls unit))
    with (m := initial_metrics [DotOpen]) (n := total (tuDecls unit)) (h := 1024)
    as (m & Hrun & Heff).
  - apply Forall_forall. intros c _. apply visitor_ok.
  - apply fits_initial; unfold total; lia.
  - lia.
  - exact Hdepth.
  - exists m. split; [|exact Heff].
    rewrite traverse_unfold, Hrun. reflexivity.
Qed.

Lemma traverse_out (unit : CXTranslationUnit) :
  Z.of_nat (length (visited (clang_getTranslationUnitCursor unit))) < INT_MAX ->
  1024 < depth (clang_getTranslationUnitCursor unit) ->
  traverse unit = Undef (OutOfBounds 1024).
Proof.
  intros Hsize Hdepth.
  rewrite depth_levels in Hdepth. unfold visited in Hsize.
  cbn [clang_getTranslationUnitCursor cursorChildren] in Hdepth, Hsize.
  rewrite traverse_unfold.
  rewrite (visit_all_out _ (tuDecls unit)) with (n := total (tuDecls unit)).
  - cbn [initial_metrics nodeStack mbind result_bind].
    now rewrite length_replicate, stack_size_Z.
  - apply Forall_forall. intros c _. apply visitor_out.
  - apply fits_initial; unfold total; lia.
  - lia.
  - cbn [initial_metrics nodeStack stackTop].
    rewrite length_replicate, stack_size_Z. lia.
Qed.

(** [main] past its three early returns. *)
Lemma main_parsed (env : Env) (path : string) (rest : list string)
    (unit : CXTranslationUnit) :
  args env = path :: rest ->
  fopen_w env "ast.dot" = true ->
  clang_parseTranslationUnit env path = Some unit ->
  main env =
    metrics ← traverse unit;
    Ok {| exit_status := 0;
          ast_dot := Some (dotFile metrics ++ [DotClose]);
          stdout := report metrics;
          stderr :=
            (if bool_decide (system env render_command = 0) then []
             else [FailedToConvert])
            ++ (if bool_decide (system env view_command = 0) then []
                else [FailedToLaunch]);
          commands := [render_command; view_command] |}.
Proof.
  intros Hargs Hopen Hparse. unfold main, traverse.
  rewrite Hargs, Hopen. cbn [length negb].
  replace (1 + Z.of_nat (S (length rest)) <? 2) with false
    by (symmetry; apply Z.ltb_ge; lia).
  change ((path :: rest) !! 0%nat) with (Some path).
  cbn [default from_option]. change (id path) with path. rewrite Hparse.
  destruct (clang_visitChildren visitor _ _) as [[r m]|u]; reflexivity.
Qed.

(** ** Maxima and loop nesting *)

Lemma fold_max_ge (l : list Z) (init : Z) : init <= fold_left Z.max l init.
Proof.
  revert init. induction l as [|x l IH]; intros init; cbn [fold_left]; [lia|].
  specialize (IH (Z.max init x)). lia.
Qed.

Lemma fold_max_upper (l : list Z) (init d : Z) :
  In d l -> d <= fold_left Z.max l init.
Proof.
  revert init. induction l as [|x l IH]; intros init; cbn [fold_left In]; [tauto|].
  intros [->|Hd]; [|now apply IH].
  pose proof (fold_max_ge l (Z.max init d)). lia.
Qed.

Lemma fold_max_attained (l : list Z) (init : Z) :
  fold_left Z.max l init = init \/ In (fold_left Z.max l init) l.
Proof.
  revert init. induction l as [|x l IH]; intros init; cbn [fold_left In]; [now left|].
  destruct (IH (Z.max init x)) as [H|H]; [|now right; right].
  rewrite H. destruct (Z.max_spec init x) as [[_ ->]|[_ ->]]; [right; left|left]; reflexivity.
Qed.

Lemma loop_depths_above (cs : list CXCursor) :
  forall e d : Z, In d (flat_map (loop_depths e) cs) -> e < d.
Proof.
  induction cs as [|c cs IHc IHcs] using forest_ind; intros e d; [intros []|].
  rewrite loop_depths_cons, !in_app_iff.
  intros [H|[H|H]].
  - destruct (is_loop (clang_getCursorKind c)); [|destruct H].
    destruct H as [<-|[]]. lia.
  - apply IHc in H. unfold b2z in H.
    destruct (is_loop (clang_getCursorKind c)); lia.
  - now apply IHcs.
Qed.

Lemma loop_depths_count (cs : list CXCursor) :
  forall e : Z,
    Z.of_nat (length (flat_map (loop_depths e) cs))
    = count is_loop (flat_map preorder cs).
Proof.
  induction cs as [|c cs IHc IHcs] using forest_ind; intros e; [reflexivity|].
  rewrite loop_depths_cons, count_cons, !length_app, !Nat2Z.inj_add, IHc, IHcs.
  unfold b2z. destruct (is_loop (clang_getCursorKind c)); cbn [length]; lia.
Qed.

Lemma loop_depths_root (unit : CXTranslationUnit) :
  loop_depths 0 (clang_getTranslationUnitCursor unit)
  = flat_map (loop_depths 0) (tuDecls unit).
Proof. reflexivity. Qed.

Lemma count_root (p : CXCursorKind -> bool) (unit : CXTranslationUnit) :
  p CXCursor_TranslationUnit = false ->
  count p (preorder (clang_getTranslationUnitCursor unit))
  = count p (visited (clang_getTranslationUnitCursor unit)).
Proof.
  intros Hp. unfold count, visited.
  cbn [preorder clang_getTranslationUnitCursor cursorChildren List.filter
       clang_getCursorKind].
  now rewrite Hp.
Qed.

Lemma traverse_inv (unit : CXTranslationUnit) (m : Metrics) :
  traverse unit = Ok m ->
  effect (tuDecls unit) (initial_metrics [DotOpen]) m.
Proof.
  rewrite traverse_unfold. intros Hrun.
  bind_step Hrun as swept Hsweep. destruct swept as [go_on m'].
  injection Hrun as <-.
  apply (visit_all_inv _ (tuDecls unit)) in Hsweep as [_ Heff]; [exact Heff|].
  apply Forall_forall. intros c _. apply visitor_inv.
Qed.

Lemma traverse_completes (unit : CXTranslationUnit) :
  in_range unit -> exists m, traverse unit = Ok m.
Proof. intros H. destruct (traverse_ok unit H) as (m & Hrun & _). now exists m. Qed.

Lemma dotFile_traversed (unit : CXTranslationUnit) (m : Metrics) :
  effect (tuDecls unit) (initial_metrics [DotOpen]) m ->
  dotFile m = DotOpen :: lines_of_forest None 0 (tuDecls unit).
Proof. intros [_ _ _ _ D _ _ _ _]. exact D. Qed.

Ltac by_computation :=
  repeat split;
  first [ apply Z.leb_le; vm_compute; reflexivity
        | apply Z.ltb_lt; vm_compute; reflexivity
        | vm_compute; reflexivity ].

(** ** The claims *)

(** C1. For every tree, when the traversal has completed, [maxLoopDepth] is
    the maximum, over the loop cursors ([for] and [while]) of the tree, of
    the number of loop cursors on the path from the root to the cursor,
    itself included, and 0 when the tree has no loop cursor.  The traversal
    does complete on every tree within the stack and [int] limits. *)
Theorem max_loop_depth_is_deepest_nesting (unit : CXTranslationUnit) (m : Metrics) :
  (in_range unit -> exists m', traverse unit = Ok m')
  /\ (traverse unit = Ok m ->
      deepest_nesting (clang_getTranslationUnitCursor unit) (maxLoopDepth m)).
Proof.
  split; [apply traverse_completes|]. intros Hrun.
  destruct (traverse_inv unit m Hrun) as [_ _ _ M _ _ _ _ _].
  cbn [initial_metrics currentLoopDepth maxLoopDepth] in M.
  unfold deepest_nesting. rewrite loop_depths_root, M.
  set (ds := flat_map (loop_depths 0) (tuDecls unit)).
  repeat split.
  - intros d Hd. now apply fold_max_upper.
  - intros Hne. destruct (fold_max_attained ds 0) as [H0|Hin]; [|exact Hin].
    destruct ds as [|d ds'] eqn:Eds; [congruence|].
    assert (Hd : 0 < d) by (apply (loop_depths_above (tuDecls unit) 0 d);
                            fold ds; rewrite Eds; now left).
    pose proof (fold_max_upper (d :: ds') 0 d (or_introl eq_refl)). lia.
  - rewrite count_root by reflexivity. unfold visited.
    cbn [clang_getTranslationUnitCursor cursorChildren].
    rewrite <- (loop_depths_count (tuDecls unit) 0). fold ds.
    destruct ds; cbn [length]; [reflexivity|lia].
Qed.

Lemma max_loop_depth_is_deepest_nesting_witness :
  in_range sample_unit
  /\ traverse sample_unit = Ok sample_metrics
  /\ deepest_nesting (clang_getTranslationUnitCursor sample_unit)
       (maxLoopDepth sample_metrics).
Proof.
  assert (H : traverse sample_unit = Ok sample_metrics) by (vm_compute; reflexivity).
  split; [by_computation|]. split; [exact H|].
  exact (proj2 (max_loop_depth_is_deepest_nesting sample_unit sample_metrics) H).
Defined.

(** C2. For every tree, when the traversal has completed, [currentLoopDepth]
    is 0 again: each visit of a loop cursor takes back its own increment,
    however deep the loops nest and whether or not they have a body.  The
    traversal does complete on every tree within the stack and [int] limits. *)
Theorem current_loop_depth_returns_to_zero (unit : CXTranslationUnit) (m : Metrics) :
  (in_range unit -> exists m', traverse unit = Ok m')
  /\ (traverse unit = Ok m -> currentLoopDepth m = 0).
Proof.
  split; [apply traverse_completes|]. intros Hrun.
  now destruct (traverse_inv unit m Hrun) as [_ _ L _ _ _ _ _ _].
Qed.

Lemma current_loop_depth_returns_to_zero_witness :
  in_range sample_unit
  /\ traverse sample_unit = Ok sample_metrics
  /\ currentLoopDepth sample_metrics = 0.
Proof.
  assert (H : traverse sample_unit = Ok sample_metrics) by (vm_compute; reflexivity).
  split; [by_computation|]. split; [exact H|].
  exact (proj2 (current_loop_depth_returns_to_zero sample_unit sample_metrics) H).
Defined.

(** C3. For every tree, when the traversal has completed, [cyclomatic] is 1
    plus the number of visited cursors that are an [if], a [for] or [while]
    loop, a [case] label or a conditional operator; so it is at least 1, and
    exactly 1 when no visited cursor is of these kinds.  The traversal does
    complete on every tree within the stack and [int] limits. *)
Theorem cyclomatic_counts_decisions (unit : CXTranslationUnit) (m : Metrics) :
  let cursors := visited (clang_getTranslationUnitCursor unit) in
  (in_range unit -> exists m', traverse unit = Ok m')
  /\ (traverse unit = Ok m ->
      cyclomatic m = 1 + count is_decision cursors
      /\ 1 <= cyclomatic m
      /\ (count is_decision cursors = 0 -> cyclomatic m = 1)).
Proof.
  intros cursors. split; [apply traverse_completes|]. intros Hrun.
  destruct (traverse_inv unit m Hrun) as [C _ _ _ _ _ _ _ _].
  cbn [initial_metrics cyclomatic] in C.
  pose proof (count_bounds is_decision (tuDecls unit)).
  subst cursors. unfold visited. cbn [clang_getTranslationUnitCursor cursorChildren].
  repeat split; lia.
Qed.

Lemma cyclomatic_counts_decisions_witness :
  in_range sample_unit
  /\ traverse sample_unit = Ok sample_metrics
  /\ cyclomatic sample_metrics
     = 1 + count is_decision (visited (clang_getTranslationUnitCursor sample_unit))
  /\ 1 <= cyclomatic sample_metrics
  /\ (count is_decision (visited (clang_getTranslationUnitCursor sample_unit)) = 0 ->
      cyclomatic sample_metrics = 1).
Proof.
  assert (H : traverse sample_unit = Ok sample_metrics) by (vm_compute; reflexivity).
  split; [by_computation|]. split; [exact H|].
  exact (proj2 (cyclomatic_counts_decisions sample_unit sample_metrics) H).
Defined.

(** C4. For every tree, when the traversal has completed, [varDeclCount] is
    the number of visited cursors that are variable declarations, wherever
    in the tree they are.  The traversal does complete on every tree within
    the stack and [int] limits. *)
Theorem var_decl_count_exact (unit : CXTranslationUnit) (m : Metrics) :
  (in_range unit -> exists m', traverse unit = Ok m')
  /\ (traverse unit = Ok m ->
      varDeclCount m
      = count is_var_decl (visited (clang_getTranslationUnitCursor unit))).
Proof.
  split; [apply traverse_completes|]. intros Hrun.
  destruct (traverse_inv unit m Hrun) as [_ V _ _ _ _ _ _ _].
  cbn [initial_metrics varDeclCount] in V. rewrite V.
  unfold visited. cbn [clang_getTranslationUnitCursor cursorChildren]. lia.
Qed.

Lemma var_decl_count_exact_witness :
  in_range sample_unit
  /\ traverse sample_unit = Ok sample_metrics
  /\ varDeclCount sample_metrics
     = count is_var_decl (visited (clang_getTranslationUnitCursor sample_unit)).
Proof.
  assert (H : traverse sample_unit = Ok sample_metrics) by (vm_compute; reflexivity).
  split; [by_computation|]. split; [exact H|].
  exact (proj2 (var_decl_count_exact sample_unit sample_metrics) H).
Defined.

(** A file with two globals: two node records and no edge record, so one
    edge less than the node records less 1. *)
Lemma edges_not_nodes_minus_one :
  exists m,
    traverse two_globals = Ok m
    /\ length (node_records (dotFile m)) = 2%nat
    /\ length (edge_records (dotFile m)) = 0%nat
    /\ Z.of_nat (length (edge_records (dotFile m)))
       <> Z.of_nat (length (node_records (dotFile m))) - 1.
Proof.
  eexists. split; [vm_compute; reflexivity|].
  repeat split; vm_compute; congruence.
Qed.

(** X14. The visitor never runs on the cursor of the translation unit, so
    that cursor has no record and its children have no edge: for every
    tree, when the traversal has completed, there are as many edge records
    as node records less the number of top-level cursors, and the records
    are the nodes and the parent-child pairs of the forest of the top-level
    cursors, numbered in pre-order.  The traversal does complete on every
    tree within the stack and [int] limits. *)
Theorem edges_form_forest_below_root (unit : CXTranslationUnit) (m : Metrics) :
  let tops := cursorChildren (clang_getTranslationUnitCursor unit) in
  (in_range unit -> exists m', traverse unit = Ok m')
  /\ (traverse unit = Ok m ->
      Z.of_nat (length (edge_records (dotFile m)))
      = Z.of_nat (length (node_records (dotFile m))) - Z.of_nat (length tops)
      /\ graph_of_forest tops (node_records (dotFile m)) (edge_records (dotFile m))).
Proof.
  intros tops. split; [apply traverse_completes|]. intros Hrun.
  rewrite (dotFile_traversed unit m (traverse_inv unit m Hrun)).
  change (node_records (DotOpen :: ?l)) with (node_records l).
  change (edge_records (DotOpen :: ?l)) with (edge_records l).
  subst tops. cbn [clang_getTranslationUnitCursor cursorChildren].
  unfold graph_of_forest. repeat split.
  - now rewrite edge_count_lines, node_count_lines.
  - apply same_shape_forest.
  - apply node_records_lines.
  - rewrite edge_records_lines. reflexivity.
Qed.

Lemma edges_form_forest_below_root_witness :
  in_range sample_unit
  /\ traverse sample_unit = Ok sample_metrics
  /\ Z.of_nat (length (edge_records (dotFile sample_metrics)))
     = Z.of_nat (length (node_records (dotFile sample_metrics)))
       - Z.of_nat (length (cursorChildren (clang_getTranslationUnitCursor sample_unit)))
  /\ graph_of_forest (cursorChildren (clang_getTranslationUnitCursor sample_unit))
       (node_records (dotFile sample_metrics)) (edge_records (dotFile sample_metrics)).
Proof.
  assert (H : traverse sample_unit = Ok sample_metrics) by (vm_compute; reflexivity).
  split; [by_computation|]. split; [exact H|].
  exact (proj2 (edges_form_forest_below_root sample_unit sample_metrics) H).
Defined.

(** C6. For every tree, when the traversal has completed, the node records
    are one per visited cursor, in pre-order; their identifiers are 0, 1,
    2, ... in the order of writing, hence distinct and increasing, and there
    are as many of them as the final value of [nodeCounter].  The traversal
    does complete on every tree within the stack and [int] limits. *)
Theorem node_records_preorder_ids (unit : CXTranslationUnit) (m : Metrics) :
  (in_range unit -> exists m', traverse unit = Ok m')
  /\ (traverse unit = Ok m ->
      numbered_in_order (visited (clang_getTranslationUnitCursor unit))
        (node_records (dotFile m))
      /\ Z.of_nat (length (node_records (dotFile m))) = nodeCounter m).
Proof.
  split; [apply traverse_completes|]. intros Hrun.
  pose proof (traverse_inv unit m Hrun) as Heff.
  rewrite (dotFile_traversed unit m Heff).
  change (node_records (DotOpen :: ?l)) with (node_records l).
  destruct Heff as [_ _ _ _ _ N _ _ _].
  cbn [initial_metrics nodeCounter] in N.
  unfold numbered_in_order, visited.
  cbn [clang_getTranslationUnitCursor cursorChildren].
  rewrite node_count_lines, node_records_lines, node_ids_forest, node_labels_forest.
  fold (total (tuDecls unit)).
  repeat split.
  - apply NoDup_seqZ.
  - intros i j a b Hi Hj Hij.
    apply lookup_seqZ in Hi, Hj. lia.
  - lia.
Qed.

Lemma node_records_preorder_ids_witness :
  in_range sample_unit
  /\ traverse sample_unit = Ok sample_metrics
  /\ numbered_in_order (visited (clang_getTranslationUnitCursor sample_unit))
       (node_records (dotFile sample_metrics))
  /\ Z.of_nat (length (node_records (dotFile sample_metrics)))
     = nodeCounter sample_metrics.
Proof.
  assert (H : traverse sample_unit = Ok sample_metrics) by (vm_compute; reflexivity).
  split; [by_computation|]. split; [exact H|].
  exact (proj2 (node_records_preorder_ids sample_unit sample_metrics) H).
Defined.

(** C7, on the code.  The label goes into the node line as it is: for the
    string literal of [puts("hi")] the quotes of the literal are written
    between the quotes of the label attribute, the quoted string that starts
    after [label=] ends before [hi], and the line does not scan as a node
    statement. *)
Theorem label_written_unescaped :
  exists m,
    traverse hi_unit = Ok m
    /\ dotFile m = [DotOpen; DotNode 0 hi_literal]
    /\ dot_text (DotNode 0 hi_literal)
       = "  node0 [label=" +:+ dquote +:+ hi_literal +:+ dquote +:+ "];" +:+ newline
    /\ node_line_scans 0 (dot_text (DotNode 0 hi_literal)) = false.
Proof.
  eexists. split; [vm_compute; reflexivity|].
  repeat split; vm_compute; reflexivity.
Qed.

(** A label without quote and backslash is harmless. *)
Example plain_label_scans :
  node_line_scans 7 (dot_text (DotNode 7 "main")) = true.
Proof. vm_compute. reflexivity. Qed.

Lemma main_usage (env : Env) :
  args env = [] ->
  main env = Ok {| exit_status := 1; ast_dot := None; stdout := [];
                   stderr := [UsageMessage (argv0 env)]; commands := [] |}.
Proof. intros H. unfold main. rewrite H. reflexivity. Qed.

Lemma main_open_failure (env : Env) (path : string) (rest : list string) :
  args env = path :: rest ->
  fopen_w env "ast.dot" = false ->
  main env = Ok {| exit_status := 1; ast_dot := None; stdout := [];
                   stderr := [Perror "fopen"]; commands := [] |}.
Proof.
  intros Hargs Hopen. unfold main. rewrite Hargs, Hopen. cbn [length negb].
  replace (1 + Z.of_nat (S (length rest)) <? 2) with false
    by (symmetry; apply Z.ltb_ge; lia).
  reflexivity.
Qed.

Lemma main_parse_failure (env : Env) (path : string) (rest : list string) :
  args env = path :: rest ->
  fopen_w env "ast.dot" = true ->
  clang_parseTranslationUnit env path = None ->
  main env = Ok {| exit_status := 1; ast_dot := Some [DotOpen]; stdout := [];
                   stderr := [UnableToParse]; commands := [] |}.
Proof.
  intros Hargs Hopen Hparse. unfold main. rewrite Hargs, Hopen. cbn [length negb].
  replace (1 + Z.of_nat (S (length rest)) <? 2) with false
    by (symmetry; apply Z.ltb_ge; lia).
  change ((path :: rest) !! 0%nat) with (Some path).
  cbn [default from_option]. change (id path) with path. now rewrite Hparse.
Qed.

Lemma main_inv (env : Env) (o : Outcome) :
  main env = Ok o ->
  (exit_status o <> 0 <-> usage_error env \/ open_failure env \/ parse_failure env)
  /\ (exit_status o = 0 \/ exit_status o = 1).
Proof.
  unfold usage_error, open_failure, parse_failure. intros Hrun.
  destruct (args env) as [|path rest] eqn:Hargs.
  { rewrite (main_usage env Hargs) in Hrun. injection Hrun as <-.
    cbn [exit_status]. repeat split; auto; lia. }
  destruct (fopen_w env "ast.dot") eqn:Hopen.
  2:{ rewrite (main_open_failure env path rest Hargs Hopen) in Hrun.
      injection Hrun as <-. cbn [exit_status]. repeat split; auto; lia. }
  destruct (clang_parseTranslationUnit env path) as [unit|] eqn:Hparse.
  2:{ rewrite (main_parse_failure env path rest Hargs Hopen Hparse) in Hrun.
      injection Hrun as <-. cbn [exit_status]. repeat split; auto; lia. }
  rewrite (main_parsed env path rest unit Hargs Hopen Hparse) in Hrun.
  bind_step Hrun as m Htraverse. injection Hrun as <-.
  cbn [exit_status]. repeat split; auto.
  - intros H. now contradiction H.
  - intros [H|[H|H]]; discriminate.
Qed.

Lemma main_completes (env : Env) :
  parsed_in_range env -> exists o, main env = Ok o.
Proof.
  unfold parsed_in_range. intros Hrange.
  destruct (args env) as [|path rest] eqn:Hargs.
  { eexists. apply main_usage. exact Hargs. }
  destruct (fopen_w env "ast.dot") eqn:Hopen.
  2:{ eexists. eapply main_open_failure; eassumption. }
  destruct (clang_parseTranslationUnit env path) as [unit|] eqn:Hparse.
  2:{ eexists. eapply main_parse_failure; eassumption. }
  destruct (traverse_completes unit Hrange) as (m & Hrun).
  eexists. rewrite (main_parsed env path rest unit Hargs Hopen Hparse), Hrun.
  reflexivity.
Qed.

(** C8, as stated, fails: after a parse failure [ast.dot] has been opened
    and holds the opening line of the graph. *)
Lemma parse_failure_leaves_header :
  exists o,
    main unparsable_env = Ok o
    /\ exit_status o <> 0
    /\ ast_dot o = Some [DotOpen]
    /\ file_text [DotOpen] = "digraph G {" +:+ newline
    /\ file_text [DotOpen] <> EmptyString.
Proof.
  eexists. split; [vm_compute; reflexivity|].
  repeat split; vm_compute; congruence.
Qed.

(** C8, as the code has it.  [main] opens [ast.dot] and writes the opening
    line before it calls the parser.  When the parser gives no tree, [main]
    returns 1, prints no report, runs no command and writes no node or edge
    record; the stream of [ast.dot] holds the opening line and nothing else. *)
Theorem parse_failure_outcome (env : Env) (path : string) (rest : list string) :
  args env = path :: rest ->
  fopen_w env "ast.dot" = true ->
  clang_parseTranslationUnit env path = None ->
  exists o,
    main env = Ok o
    /\ exit_status o = 1
    /\ stdout o = []
    /\ commands o = []
    /\ ast_dot o = Some [DotOpen].
Proof.
  intros Hargs Hopen Hparse. eexists. split.
  - apply (main_parse_failure env path rest); assumption.
  - repeat split.
Qed.

Lemma parse_failure_outcome_witness :
  args unparsable_env = ["missing.c"]
  /\ fopen_w unparsable_env "ast.dot" = true
  /\ clang_parseTranslationUnit unparsable_env "missing.c" = None
  /\ exists o,
       main unparsable_env = Ok o
       /\ exit_status o = 1
       /\ stdout o = []
       /\ commands o = []
       /\ ast_dot o = Some [DotOpen].
Proof.
  repeat split; try reflexivity.
  exact (parse_failure_outcome unparsable_env "missing.c" [] eq_refl eq_refl eq_refl).
Defined.

(** C9. Whenever [main] returns, its status is nonzero exactly when the
    input path is missing, [ast.dot] cannot be opened or the parser gives no
    tree, and 0 otherwise; with other results of the renderer and viewer
    commands the status is the same.  [main] does return whenever the tree
    it gets, if any, is within the stack and [int] limits. *)
Theorem exit_status_nonzero_iff_fatal (env : Env) (status : string -> Z)
    (o o' : Outcome) :
  (parsed_in_range env ->
   exists o1 o2, main env = Ok o1 /\ main (with_system status env) = Ok o2)
  /\ (main env = Ok o ->
      (exit_status o <> 0 <->
       usage_error env \/ open_failure env \/ parse_failure env)
      /\ (exit_status o = 0 \/ exit_status o = 1)
      /\ (main (with_system status env) = Ok o' -> exit_status o' = exit_status o)).
Proof.
  split.
  - intros Hrange.
    destruct (main_completes env Hrange) as [o1 H1].
    destruct (main_completes (with_system status env) Hrange) as [o2 H2].
    now exists o1, o2.
  - intros Hrun.
    destruct (main_inv env o Hrun) as [Hiff Hval].
    split; [exact Hiff|]. split; [exact Hval|].
    intros Hrun'.
    destruct (main_inv (with_system status env) o' Hrun') as [Hiff' Hval'].
    change (usage_error (with_system status env)) with (usage_error env) in Hiff'.
    change (open_failure (with_system status env)) with (open_failure env) in Hiff'.
    change (parse_failure (with_system status env)) with (parse_failure env) in Hiff'.
    destruct Hval as [Ho|Ho], Hval' as [Ho'|Ho']; try lia.
    + apply proj1 in Hiff'. rewrite Ho in Hiff. apply proj2 in Hiff.
      assert (0 <> 0) by (apply Hiff, Hiff'; lia). lia.
    + apply proj1 in Hiff. rewrite Ho' in Hiff'. apply proj2 in Hiff'.
      assert (0 <> 0) by (apply Hiff', Hiff; lia). lia.
Qed.

Lemma exit_status_nonzero_iff_fatal_witness :
  parsed_in_range sample_env
  /\ main sample_env = Ok (outcome_of sample_env)
  /\ main (with_system (fun _ => 1) sample_env)
     = Ok (outcome_of (with_system (fun _ => 1) sample_env))
  /\ (exit_status (outcome_of sample_env) <> 0 <->
      usage_error sample_env \/ open_failure sample_env \/ parse_failure sample_env)
  /\ (exit_status (outcome_of sample_env) = 0
      \/ exit_status (outcome_of sample_env) = 1)
  /\ exit_status (outcome_of (with_system (fun _ => 1) sample_env))
     = exit_status (outcome_of sample_env).
Proof.
  assert (H : main sample_env = Ok (outcome_of sample_env)) by (vm_compute; reflexivity).
  assert (H' : main (with_system (fun _ => 1) sample_env)
               = Ok (outcome_of (with_system (fun _ => 1) sample_env)))
    by (vm_compute; reflexivity).
  split; [by_computation|]. split; [exact H|]. split; [exact H'|].
  destruct (proj2 (exit_status_nonzero_iff_fatal sample_env (fun _ => 1)
                     (outcome_of sample_env)
                     (outcome_of (with_system (fun _ => 1) sample_env))) H)
    as (Hiff & Hval & Hsame).
  split; [exact Hiff|]. split; [exact Hval|]. exact (Hsame H').
Defined.

(** C10. [nodeStack] has 1024 slots and the push does not check: on a tree
    that the counters can count, the traversal completes, with every access
    to the stack inside the array, exactly when the depth of the tree is at
    most 1024, and on a deeper tree the push indexes slot 1024, past the end.
    The chain of 1025 nested statements is such a tree. *)
Theorem stack_in_bounds_iff_depth (unit : CXTranslationUnit) :
  Z.of_nat (length (visited (clang_getTranslationUnitCursor unit))) < INT_MAX ->
  ((exists m, traverse unit = Ok m)
   <-> depth (clang_getTranslationUnitCursor unit) <= 1024)
  /\ (1024 < depth (clang_getTranslationUnitCursor unit) ->
      traverse unit = Undef (OutOfBounds 1024))
  /\ (depth (clang_getTranslationUnitCursor deep_unit) = 1025
      /\ traverse deep_unit = Undef (OutOfBounds 1024)).
Proof.
  intros Hsize. split; [split|split].
  - intros [m Hrun].
    destruct (Z.le_gt_cases (depth (clang_getTranslationUnitCursor unit)) 1024)
      as [H|H]; [exact H|].
    rewrite (traverse_out unit Hsize) in Hrun by lia. discriminate.
  - intros Hdepth.
    destruct (traverse_ok unit (conj Hdepth Hsize)) as (m & Hrun & _).
    now exists m.
  - now apply traverse_out.
  - split; vm_compute; reflexivity.
Qed.

Lemma stack_in_bounds_iff_depth_witness :
  Z.of_nat (length (visited (clang_getTranslationUnitCursor sample_unit))) < INT_MAX
  /\ ((exists m, traverse sample_unit = Ok m)
      <-> depth (clang_getTranslationUnitCursor sample_unit) <= 1024)
  /\ (1024 < depth (clang_getTranslationUnitCursor sample_unit) ->
      traverse sample_unit = Undef (OutOfBounds 1024))
  /\ (depth (clang_getTranslationUnitCursor deep_unit) = 1025
      /\ traverse deep_unit = Undef (OutOfBounds 1024)).
Proof.
  assert (H : Z.of_nat (length (visited (clang_getTranslationUnitCursor sample_unit)))
              < INT_MAX) by by_computation.
  split; [exact H | exact (stack_in_bounds_iff_depth sample_unit H)].
Defined.

Example sample_report :
  exists o,
    main sample_env = Ok o
    /\ exit_status o = 0
    /\ stdout o = report (mkMetrics 4 2 0 2 [] 9 [] 0).
Proof. eexists. split; [vm_compute; reflexivity|]. by_computation. Qed.


(** ** Further properties of [visitor] *)

Lemma visitor_effect (c parent : CXCursor) (m : Metrics)
    (r : CXChildVisitResult) (m' : Metrics) :
  visitor c parent m = Ok (r, m') ->
  r = CXChildVisit_Continue /\ effect [c] m m'.
Proof.
  intros Hrun.
  destruct (visitor_inv c parent m r m' Hrun) as (-> & Htop & m2 & -> & Heff).
  split; [reflexivity|].
  apply (effect_cons c [] m m2 (left c m2) Htop Heff), effect_nil.
Qed.

Lemma visitor_completes (c parent : CXCursor) (m : Metrics) :
  fits m (size c) (1 + depth c) ->
  exists r m', visitor c parent m = Ok (r, m').
Proof.
  intros Hfits. rewrite size_total, depth_levels in Hfits.
  destruct (visitor_ok c parent m _ _ Hfits) as (m2 & Hrun & _); [lia..|].
  eauto.
Qed.

Lemma preorder_single (c : CXCursor) : flat_map preorder [c] = preorder c.
Proof. cbn [flat_map]. apply app_nil_r. Qed.

(** X1. A completed call of [visitor] has popped what it pushed: [stackTop]
    is what it was, the array has its length and the slots below [stackTop]
    hold what they held, whatever the subtree; and the call returns
    [CXChildVisit_Continue].  The call completes wherever the metrics have
    room for the subtree. *)
Theorem visitor_restores_stack (c parent : CXCursor) (m : Metrics)
    (r : CXChildVisitResult) (m' : Metrics) :
  (fits m (size c) (1 + depth c) ->
   exists r1 m1, visitor c parent m = Ok (r1, m1))
  /\ (visitor c parent m = Ok (r, m') ->
      r = CXChildVisit_Continue
      /\ stackTop m' = stackTop m
      /\ length (nodeStack m') = length (nodeStack m)
      /\ (forall i : nat, (i < Z.to_nat (stackTop m))%nat ->
            nodeStack m' !! i = nodeStack m !! i)).
Proof.
  split; [apply visitor_completes|]. intros Hrun.
  destruct (visitor_effect c parent m r m' Hrun) as [-> [_ _ _ _ _ _ T S B]].
  auto.
Qed.

Lemma visitor_restores_stack_witness :
  let m := initial_metrics [] in
  let root := clang_getTranslationUnitCursor sample_unit in
  fits m (size nested_loops) (1 + depth nested_loops)
  /\ visitor nested_loops root m
     = Ok (CXChildVisit_Continue, metrics_after nested_loops root m)
  /\ stackTop (metrics_after nested_loops root m) = stackTop m
  /\ length (nodeStack (metrics_after nested_loops root m)) = length (nodeStack m)
  /\ (forall i : nat, (i < Z.to_nat (stackTop m))%nat ->
        nodeStack (metrics_after nested_loops root m) !! i = nodeStack m !! i).
Proof.
  intros m root.
  assert (H : visitor nested_loops root m
              = Ok (CXChildVisit_Continue, metrics_after nested_loops root m))
    by (vm_compute; reflexivity).
  split; [by_computation|]. split; [exact H|].
  exact (proj2 (proj2 (visitor_restores_stack nested_loops root m
                         CXChildVisit_Continue
                         (metrics_after nested_loops root m)) H)).
Defined.

(** X2. A completed call of [visitor] on [c], from any metrics, adds to
    [cyclomatic] and [varDeclCount] the numbers of decision cursors and of
    variable declarations at and below [c], adds to [nodeCounter] the number
    of cursors at and below [c], leaves [currentLoopDepth] as it was and
    never lowers [maxLoopDepth].  The call completes wherever the metrics
    have room for the subtree. *)
Theorem visitor_adds_subtree_counts (c parent : CXCursor) (m : Metrics)
    (r : CXChildVisitResult) (m' : Metrics) :
  (fits m (size c) (1 + depth c) ->
   exists r1 m1, visitor c parent m = Ok (r1, m1))
  /\ (visitor c parent m = Ok (r, m') ->
      cyclomatic m' = cyclomatic m + count is_decision (preorder c)
      /\ varDeclCount m' = varDeclCount m + count is_var_decl (preorder c)
      /\ nodeCounter m' = nodeCounter m + size c
      /\ currentLoopDepth m' = currentLoopDepth m
      /\ maxLoopDepth m'
         = fold_left Z.max (loop_depths (currentLoopDepth m) c) (maxLoopDepth m)
      /\ maxLoopDepth m <= maxLoopDepth m').
Proof.
  split; [apply visitor_completes|]. intros Hrun.
  destruct (visitor_effect c parent m r m' Hrun) as [_ [C V L M _ N _ _ _]].
  rewrite preorder_single in C, V.
  cbn [flat_map] in M. rewrite app_nil_r in M.
  unfold total in N. rewrite preorder_single in N. fold (size c) in N.
  repeat split; try assumption.
  rewrite M. apply fold_max_ge.
Qed.

Lemma visitor_adds_subtree_counts_witness :
  let m := initial_metrics [] in
  let root := clang_getTranslationUnitCursor sample_unit in
  let m' := metrics_after nested_loops root m in
  fits m (size nested_loops) (1 + depth nested_loops)
  /\ visitor nested_loops root m = Ok (CXChildVisit_Continue, m')
  /\ cyclomatic m' = cyclomatic m + count is_decision (preorder nested_loops)
  /\ varDeclCount m' = varDeclCount m + count is_var_decl (preorder nested_loops)
  /\ nodeCounter m' = nodeCounter m + size nested_loops
  /\ currentLoopDepth m' = currentLoopDepth m
  /\ maxLoopDepth m'
     = fold_left Z.max (loop_depths (currentLoopDepth m) nested_loops) (maxLoopDepth m)
  /\ maxLoopDepth m <= maxLoopDepth m'.
Proof.
  intros m root m'.
  assert (H : visitor nested_loops root m = Ok (CXChildVisit_Continue, m'))
    by (vm_compute; reflexivity).
  split; [by_computation|]. split; [exact H|].
  exact (proj2 (visitor_adds_subtree_counts nested_loops root m
                  CXChildVisit_Continue m') H).
Defined.

(** ** Further properties of the records *)

Lemma edges_bounded (cs : list CXCursor) :
  forall (parent : option Z) (next lo : Z),
    lo <= next ->
    (forall q, parent = Some q -> lo <= q < next) ->
    Forall (fun e : Z * Z => lo <= fst e < snd e /\ next <= snd e < next + total cs)
      (edge_records (lines_of_forest parent next cs)).
Proof.
  induction cs as [|c cs IHc IHcs] using forest_ind; intros parent next lo Hlo Hparent;
    [constructor|].
  pose proof (total_nonneg cs). pose proof (total_nonneg (cursorChildren c)).
  rewrite lines_of_forest_cons, total_cons.
  change (edge_records (DotNode next (clang_getCursorSpelling c) :: ?l))
    with (edge_records l).
  rewrite !edge_records_app, !Forall_app. repeat split.
  - destruct parent as [q|]; [|constructor].
    specialize (Hparent q eq_refl).
    constructor; [cbn [fst snd]; lia | constructor].
  - eapply Forall_impl; [apply (IHc (Some next) (next + 1) lo)|].
    + lia.
    + intros q [= <-]. lia.
    + intros [p t]. cbn [fst snd]. lia.
  - eapply Forall_impl;
      [apply (IHcs parent (next + 1 + total (cursorChildren c)) lo)|].
    + lia.
    + intros q Hq. specialize (Hparent q Hq). lia.
    + intros [p t]. cbn [fst snd]. lia.
Qed.

Lemma scan_lines_app (l1 l2 : list DotLine) :
  forall last : option Z,
    scan_lines last (l1 ++ l2)
    = match scan_lines last l1 with
      | Some last' => scan_lines last' l2
      | None => None
      end.
Proof.
  induction l1 as [|line l1 IH]; intros last; [reflexivity|].
  destruct line; cbn [app scan_lines]; try apply IH.
  destruct (bool_decide (last = Some to)); [apply IH | reflexivity].
Qed.

Lemma scan_lines_forest (cs : list CXCursor) :
  forall (parent last : option Z) (next : Z),
    is_Some (scan_lines last (lines_of_forest parent next cs)).
Proof.
  induction cs as [|c cs IHc IHcs] using forest_ind; intros parent last next;
    [now exists last|].
  rewrite lines_of_forest_cons. cbn [scan_lines].
  rewrite scan_lines_app.
  assert (Hedge : is_Some (scan_lines (Some next)
            match parent with Some p => [DotEdge p next] | None => [] end)).
  { destruct parent; cbn [scan_lines]; [|eauto].
    rewrite bool_decide_true by reflexivity. eauto. }
  destruct Hedge as [last1 ->]. rewrite scan_lines_app.
  destruct (IHc (Some next) last1 (next + 1)) as [last2 ->].
  apply IHcs.
Qed.

(** X3. In a completed traversal every edge record goes from an identifier
    to a greater one, and both are identifiers of node records: the parent
    of a cursor is written before the cursor, and no edge points outside
    the graph.  The traversal completes on every tree within the limits. *)
Theorem edges_go_forward (unit : CXTranslationUnit) (m : Metrics) :
  (in_range unit -> exists m', traverse unit = Ok m')
  /\ (traverse unit = Ok m ->
      Forall (fun e : Z * Z => 0 <= fst e < snd e /\ snd e < nodeCounter m)
        (edge_records (dotFile m))).
Proof.
  split; [apply traverse_completes|]. intros Hrun.
  pose proof (traverse_inv unit m Hrun) as Heff.
  rewrite (dotFile_traversed unit m Heff).
  change (edge_records (DotOpen :: ?l)) with (edge_records l).
  destruct Heff as [_ _ _ _ _ N _ _ _].
  cbn [initial_metrics nodeCounter] in N. rewrite N.
  eapply Forall_impl; [apply (edges_bounded (tuDecls unit) None 0 0)|].
  - lia.
  - intros q [=].
  - intros [p t]. cbn [fst snd]. lia.
Qed.

Lemma edges_go_forward_witness :
  in_range sample_unit
  /\ traverse sample_unit = Ok sample_metrics
  /\ Forall (fun e : Z * Z => 0 <= fst e < snd e /\ snd e < nodeCounter sample_metrics)
       (edge_records (dotFile sample_metrics)).
Proof.
  assert (H : traverse sample_unit = Ok sample_metrics) by (vm_compute; reflexivity).
  split; [by_computation|]. split; [exact H|].
  exact (proj2 (edges_go_forward sample_unit sample_metrics) H).
Defined.

(** X4. In the stream of a completed traversal an edge line stands only
    directly after the node line of the cursor it leads to, so a cursor has
    at most one edge line and it is written before anything about other
    cursors.  The traversal completes on every tree within the limits. *)
Theorem edge_follows_its_node (unit : CXTranslationUnit) (m : Metrics) :
  (in_range unit -> exists m', traverse unit = Ok m')
  /\ (traverse unit = Ok m -> is_Some (scan_lines None (dotFile m))).
Proof.
  split; [apply traverse_completes|]. intros Hrun.
  rewrite (dotFile_traversed unit m (traverse_inv unit m Hrun)).
  cbn [scan_lines]. apply scan_lines_forest.
Qed.

Lemma edge_follows_its_node_witness :
  in_range sample_unit
  /\ traverse sample_unit = Ok sample_metrics
  /\ is_Some (scan_lines None (dotFile sample_metrics)).
Proof.
  assert (H : traverse sample_unit = Ok sample_metrics) by (vm_compute; reflexivity).
  split; [by_computation|]. split; [exact H|].
  exact (proj2 (edge_follows_its_node sample_unit sample_metrics) H).
Defined.

(** The checker does reject a stream in which an edge line comes late. *)
Example late_edge_rejected :
  scan_lines None [DotOpen; DotNode 0 "f"; DotNode 1 "x"; DotEdge 0 1; DotEdge 0 1]
  = None.
Proof. reflexivity. Qed.


(** ** Further properties of [main] *)

Lemma fold_max_deepest (unit : CXTranslationUnit) :
  deepest_nesting (clang_getTranslationUnitCursor unit)
    (fold_left Z.max (flat_map (loop_depths 0) (tuDecls unit)) 0).
Proof.
  unfold deepest_nesting. rewrite loop_depths_root.
  set (ds := flat_map (loop_depths 0) (tuDecls unit)).
  repeat split.
  - intros d Hd. now apply fold_max_upper.
  - intros Hne. destruct (fold_max_attained ds 0) as [H0|Hin]; [|exact Hin].
    destruct ds as [|d ds'] eqn:Eds; [congruence|].
    assert (Hd : 0 < d) by (apply (loop_depths_above (tuDecls unit) 0 d);
                            fold ds; rewrite Eds; now left).
    pose proof (fold_max_upper (d :: ds') 0 d (or_introl eq_refl)). lia.
  - rewrite count_root by reflexivity. unfold visited.
    cbn [clang_getTranslationUnitCursor cursorChildren].
    rewrite <- (loop_depths_count (tuDecls unit) 0). fold ds.
    destruct ds; cbn [length]; [reflexivity|lia].
Qed.

Lemma main_success (env : Env) (path : string) (rest : list string)
    (unit : CXTranslationUnit) (o : Outcome) :
  args env = path :: rest ->
  fopen_w env "ast.dot" = true ->
  clang_parseTranslationUnit env path = Some unit ->
  main env = Ok o ->
  exists m,
    traverse unit = Ok m
    /\ o = {| exit_status := 0;
              ast_dot := Some (dotFile m ++ [DotClose]);
              stdout := report m;
              stderr := warnings env;
              commands := [render_command; view_command] |}.
Proof.
  intros Hargs Hopen Hparse Hrun.
  rewrite (main_parsed env path rest unit Hargs Hopen Hparse) in Hrun.
  bind_step Hrun as m Htraverse. injection Hrun as <-.
  now exists m.
Qed.

Lemma main_success_completes (env : Env) (path : string) (rest : list string)
    (unit : CXTranslationUnit) :
  args env = path :: rest ->
  fopen_w env "ast.dot" = true ->
  clang_parseTranslationUnit env path = Some unit ->
  in_range unit -> exists o, main env = Ok o.
Proof.
  intros Hargs Hopen Hparse Hrange. apply main_completes.
  unfold parsed_in_range. now rewrite Hargs, Hparse.
Qed.

(** X5. When [main] has parsed a tree and returns, the stream of [ast.dot]
    is the opening line, then for each cursor below the root, in pre-order,
    its node line followed by its edge line if it has a parent below the
    root, then the closing line; nothing else is written.  [main] returns
    whenever the tree is within the limits. *)
Theorem ast_dot_is_one_block (env : Env) (path : string) (rest : list string)
    (unit : CXTranslationUnit) (o : Outcome) :
  args env = path :: rest ->
  fopen_w env "ast.dot" = true ->
  clang_parseTranslationUnit env path = Some unit ->
  (in_range unit -> exists o1, main env = Ok o1)
  /\ (main env = Ok o ->
      ast_dot o
      = Some (DotOpen :: lines_of_forest None 0 (tuDecls unit) ++ [DotClose])).
Proof.
  intros Hargs Hopen Hparse.
  split; [now apply (main_success_completes env path rest)|]. intros Hrun.
  destruct (main_success env path rest unit o Hargs Hopen Hparse Hrun)
    as (m & Htraverse & ->).
  cbn [ast_dot].
  now rewrite (dotFile_traversed unit m (traverse_inv unit m Htraverse)).
Qed.

Lemma ast_dot_is_one_block_witness :
  args sample_env = ["sample.c"]
  /\ fopen_w sample_env "ast.dot" = true
  /\ clang_parseTranslationUnit sample_env "sample.c" = Some sample_unit
  /\ in_range sample_unit
  /\ main sample_env = Ok (outcome_of sample_env)
  /\ ast_dot (outcome_of sample_env)
     = Some (DotOpen :: lines_of_forest None 0 (tuDecls sample_unit) ++ [DotClose]).
Proof.
  assert (H : main sample_env = Ok (outcome_of sample_env)) by (vm_compute; reflexivity).
  split; [reflexivity|]. split; [reflexivity|]. split; [reflexivity|].
  split; [by_computation|]. split; [exact H|].
  exact (proj2 (ast_dot_is_one_block sample_env "sample.c" [] sample_unit
                  (outcome_of sample_env) eq_refl eq_refl eq_refl) H).
Defined.

(** X6. When [main] has parsed a tree and returns, the report that [main]
    itself prints consists of three lines: the cyclomatic complexity, which
    is 1 plus the number of decision cursors below the root, the time
    estimate with the deepest loop nesting of the tree as exponent, and the
    space estimate with the number of variable declarations.  (What the
    viewer command writes to the same stream is not [main]'s.)  [main]
    returns whenever the tree is within the limits. *)
Theorem report_states_the_counts (env : Env) (path : string) (rest : list string)
    (unit : CXTranslationUnit) (o : Outcome) :
  let root := clang_getTranslationUnitCursor unit in
  args env = path :: rest ->
  fopen_w env "ast.dot" = true ->
  clang_parseTranslationUnit env path = Some unit ->
  (in_range unit -> exists o1, main env = Ok o1)
  /\ (main env = Ok o ->
      exists d,
        deepest_nesting root d
        /\ stdout o
           = [ "Cyclomatic Complexity: "
                 +:+ pretty (1 + count is_decision (visited root)) +:+ newline;
               "Estimated Time Complexity: O(n^" +:+ pretty d
                 +:+ ") based on max loop nesting depth" +:+ newline;
               "Estimated Space Complexity: O(n) with "
                 +:+ pretty (count is_var_decl (visited root))
                 +:+ " variable declarations" +:+ newline ]).
Proof.
  intros root Hargs Hopen Hparse.
  split; [now apply (main_success_completes env path rest)|]. intros Hrun.
  destruct (main_success env path rest unit o Hargs Hopen Hparse Hrun)
    as (m & Htraverse & ->).
  destruct (traverse_inv unit m Htraverse) as [C V _ M _ _ _ _ _].
  cbn [initial_metrics cyclomatic varDeclCount currentLoopDepth maxLoopDepth] in C, V, M.
  exists (maxLoopDepth m). split.
  - rewrite M. apply fold_max_deepest.
  - cbn [stdout]. unfold report. rewrite C, V. subst root. unfold visited.
    cbn [clang_getTranslationUnitCursor cursorChildren].
    now rewrite Z.add_0_l.
Qed.

Lemma report_states_the_counts_witness :
  args sample_env = ["sample.c"]
  /\ fopen_w sample_env "ast.dot" = true
  /\ clang_parseTranslationUnit sample_env "sample.c" = Some sample_unit
  /\ in_range sample_unit
  /\ main sample_env = Ok (outcome_of sample_env)
  /\ exists d,
       deepest_nesting (clang_getTranslationUnitCursor sample_unit) d
       /\ stdout (outcome_of sample_env)
          = [ "Cyclomatic Complexity: "
                +:+ pretty (1 + count is_decision
                                  (visited (clang_getTranslationUnitCursor sample_unit)))
                +:+ newline;
              "Estimated Time Complexity: O(n^" +:+ pretty d
                +:+ ") based on max loop nesting depth" +:+ newline;
              "Estimated Space Complexity: O(n) with "
                +:+ pretty (count is_var_decl
                              (visited (clang_getTranslationUnitCursor sample_unit)))
                +:+ " variable declarations" +:+ newline ].
Proof.
  assert (H : main sample_env = Ok (outcome_of sample_env)) by (vm_compute; reflexivity).
  split; [reflexivity|]. split; [reflexivity|]. split; [reflexivity|].
  split; [by_computation|]. split; [exact H|].
  exact (proj2 (report_states_the_counts sample_env "sample.c" [] sample_unit
                  (outcome_of sample_env) eq_refl eq_refl eq_refl) H).
Defined.

(** X7. When [main] has parsed a tree and returns, it has run the renderer
    command and then the viewer command, the viewer also when the renderer
    failed, and [main] itself has written one warning for each of the two
    that returned a nonzero status, and no other diagnostic of its own.
    (What the commands write to the same stream is not [main]'s.) *)
Theorem both_commands_run (env : Env) (path : string) (rest : list string)
    (unit : CXTranslationUnit) (o : Outcome) :
  args env = path :: rest ->
  fopen_w env "ast.dot" = true ->
  clang_parseTranslationUnit env path = Some unit ->
  (in_range unit -> exists o1, main env = Ok o1)
  /\ (main env = Ok o ->
      commands o = [render_command; view_command]
      /\ (In FailedToConvert (stderr o) <-> system env render_command <> 0)
      /\ (In FailedToLaunch (stderr o) <-> system env view_command <> 0)
      /\ (forall d, In d (stderr o) -> d = FailedToConvert \/ d = FailedToLaunch)
      /\ (length (stderr o) <= 2)%nat).
Proof.
  intros Hargs Hopen Hparse.
  split; [now apply (main_success_completes env path rest)|]. intros Hrun.
  destruct (main_success env path rest unit o Hargs Hopen Hparse Hrun)
    as (m & _ & ->).
  cbn [commands stderr]. unfold warnings.
  destruct (bool_decide_reflect (system env render_command = 0)) as [E1|E1];
    destruct (bool_decide_reflect (system env view_command = 0)) as [E2|E2];
    cbn [app In length]; repeat split; try tauto; try lia;
    intros; try congruence;
    repeat match goal with
           | H : _ \/ _ |- _ => destruct H
           | H : False |- _ => destruct H
           end; try discriminate; try tauto; subst; auto.
Qed.

Lemma both_commands_run_witness :
  args empty_env = ["empty.c"]
  /\ fopen_w empty_env "ast.dot" = true
  /\ clang_parseTranslationUnit empty_env "empty.c" = Some empty_unit
  /\ in_range empty_unit
  /\ main empty_env = Ok (outcome_of empty_env)
  /\ commands (outcome_of empty_env) = [render_command; view_command]
  /\ (In FailedToConvert (stderr (outcome_of empty_env))
      <-> system empty_env render_command <> 0)
  /\ (In FailedToLaunch (stderr (outcome_of empty_env))
      <-> system empty_env view_command <> 0)
  /\ (forall d, In d (stderr (outcome_of empty_env)) ->
        d = FailedToConvert \/ d = FailedToLaunch)
  /\ (length (stderr (outcome_of empty_env)) <= 2)%nat.
Proof.
  assert (H : main empty_env = Ok (outcome_of empty_env)) by (vm_compute; reflexivity).
  split; [reflexivity|]. split; [reflexivity|]. split; [reflexivity|].
  split; [by_computation|]. split; [exact H|].
  exact (proj2 (both_commands_run empty_env "empty.c" [] empty_unit
                  (outcome_of empty_env) eq_refl eq_refl eq_refl) H).
Defined.

Lemma main_cases (env : Env) (o : Outcome) :
  main env = Ok o ->
  (usage_error env
   /\ o = {| exit_status := 1; ast_dot := None; stdout := [];
             stderr := [UsageMessage (argv0 env)]; commands := [] |})
  \/ (~ usage_error env /\ open_failure env
      /\ o = {| exit_status := 1; ast_dot := None; stdout := [];
                stderr := [Perror "fopen"]; commands := [] |})
  \/ (~ usage_error env /\ ~ open_failure env /\ parse_failure env
      /\ o = {| exit_status := 1; ast_dot := Some [DotOpen]; stdout := [];
                stderr := [UnableToParse]; commands := [] |})
  \/ (exists path rest unit m,
        args env = path :: rest
        /\ fopen_w env "ast.dot" = true
        /\ clang_parseTranslationUnit env path = Some unit
        /\ traverse unit = Ok m
        /\ o = {| exit_status := 0;
                  ast_dot := Some (dotFile m ++ [DotClose]);
                  stdout := report m;
                  stderr := warnings env;
                  commands := [render_command; view_command] |}).
Proof.
  unfold usage_error, open_failure, parse_failure. intros Hrun.
  destruct (args env) as [|path rest] eqn:Hargs.
  { left. rewrite (main_usage env Hargs) in Hrun. injection Hrun as <-. auto. }
  right. destruct (fopen_w env "ast.dot") eqn:Hopen.
  2:{ left. rewrite (main_open_failure env path rest Hargs Hopen) in Hrun.
      injection Hrun as <-. auto. }
  right. destruct (clang_parseTranslationUnit env path) as [unit|] eqn:Hparse.
  2:{ left. rewrite (main_parse_failure env path rest Hargs Hopen Hparse) in Hrun.
      injection Hrun as <-. repeat split; congruence. }
  right.
  assert (Hargs' : args env = path :: rest) by exact Hargs.
  destruct (main_success env path rest unit o Hargs' Hopen Hparse Hrun)
    as (m & Htraverse & ->).
  now exists path, rest, unit, m.
Qed.

(** X8. Whenever [main] returns a nonzero status it has printed nothing on
    the standard output, has run no command, has written exactly one
    diagnostic and no node or edge line; and whenever [main] returns,
    [ast.dot] is left unopened exactly when the input path is missing or
    the file cannot be opened.  [main] returns whenever the tree it gets,
    if any, is within the limits. *)
Theorem fatal_runs_do_nothing_else (env : Env) (o : Outcome) :
  (parsed_in_range env -> exists o1, main env = Ok o1)
  /\ (main env = Ok o ->
      (exit_status o <> 0 ->
       stdout o = [] /\ commands o = [] /\ length (stderr o) = 1%nat
       /\ node_records (default [] (ast_dot o)) = []
       /\ edge_records (default [] (ast_dot o)) = [])
      /\ (ast_dot o = None <-> usage_error env \/ open_failure env)).
Proof.
  split; [apply main_completes|]. intros Hrun.
  destruct (main_cases env o Hrun)
    as [(Hu & ->)|[(Hu & Ho & ->)|[(Hu & Ho & Hp & ->)
        |(path & rest & unit & m & Hargs & Hopen & Hparse & _ & ->)]]];
    cbn [exit_status stdout commands stderr ast_dot default from_option length
         node_records edge_records flat_map app].
  - repeat split; auto.
  - repeat split; auto.
  - repeat split; auto; try discriminate. intros [H|H]; contradiction.
  - split; [intros H; now contradiction H|].
    split; [discriminate|].
    unfold usage_error, open_failure. rewrite Hargs, Hopen.
    intros [H|H]; discriminate.
Qed.

Lemma fatal_runs_do_nothing_else_witness :
  parsed_in_range unparsable_env
  /\ main unparsable_env = Ok (outcome_of unparsable_env)
  /\ (exit_status (outcome_of unparsable_env) <> 0 ->
      stdout (outcome_of unparsable_env) = []
      /\ commands (outcome_of unparsable_env) = []
      /\ length (stderr (outcome_of unparsable_env)) = 1%nat
      /\ node_records (default [] (ast_dot (outcome_of unparsable_env))) = []
      /\ edge_records (default [] (ast_dot (outcome_of unparsable_env))) = [])
  /\ (ast_dot (outcome_of unparsable_env) = None
      <-> usage_error unparsable_env \/ open_failure unparsable_env).
Proof.
  assert (H : main unparsable_env = Ok (outcome_of unparsable_env))
    by (vm_compute; reflexivity).
  split; [by_computation|]. split; [exact H|].
  exact (proj2 (fatal_runs_do_nothing_else unparsable_env
                  (outcome_of unparsable_env)) H).
Defined.

(** X9. What the renderer and viewer commands return changes nothing but
    the warnings: with other results of [system] a run of [main] that
    returns has the same status, the same report on the standard output,
    the same stream of [ast.dot] and the same commands. *)
Theorem commands_only_change_warnings (env : Env) (status : string -> Z)
    (o o' : Outcome) :
  (parsed_in_range env ->
   exists o1 o2, main env = Ok o1 /\ main (with_system status env) = Ok o2)
  /\ (main env = Ok o ->
      main (with_system status env) = Ok o' ->
      exit_status o' = exit_status o
      /\ stdout o' = stdout o
      /\ ast_dot o' = ast_dot o
      /\ commands o' = commands o).
Proof.
  split.
  - intros Hrange.
    destruct (main_completes env Hrange) as [o1 H1].
    destruct (main_completes (with_system status env) Hrange) as [o2 H2].
    now exists o1, o2.
  - intros Hrun Hrun'.
    destruct (args env) as [|path rest] eqn:Hargs.
    { rewrite (main_usage env Hargs) in Hrun.
      rewrite (main_usage (with_system status env) Hargs) in Hrun'.
      injection Hrun as <-. injection Hrun' as <-. auto. }
    destruct (fopen_w env "ast.dot") eqn:Hopen.
    2:{ rewrite (main_open_failure env path rest Hargs Hopen) in Hrun.
        rewrite (main_open_failure (with_system status env) path rest Hargs Hopen)
          in Hrun'.
        injection Hrun as <-. injection Hrun' as <-. auto. }
    destruct (clang_parseTranslationUnit env path) as [unit|] eqn:Hparse.
    2:{ rewrite (main_parse_failure env path rest Hargs Hopen Hparse) in Hrun.
        rewrite (main_parse_failure (with_system status env) path rest
                   Hargs Hopen Hparse) in Hrun'.
        injection Hrun as <-. injection Hrun' as <-. auto. }
    destruct (main_success env path rest unit o Hargs Hopen Hparse Hrun)
      as (m & Htraverse & ->).
    destruct (main_success (with_system status env) path rest unit o'
                Hargs Hopen Hparse Hrun') as (m' & Htraverse' & ->).
    rewrite Htraverse in Htraverse'. injection Htraverse' as <-. auto.
Qed.

Lemma commands_only_change_warnings_witness :
  parsed_in_range sample_env
  /\ main sample_env = Ok (outcome_of sample_env)
  /\ main (with_system (fun _ => 1) sample_env)
     = Ok (outcome_of (with_system (fun _ => 1) sample_env))
  /\ exit_status (outcome_of (with_system (fun _ => 1) sample_env))
     = exit_status (outcome_of sample_env)
  /\ stdout (outcome_of (with_system (fun _ => 1) sample_env))
     = stdout (outcome_of sample_env)
  /\ ast_dot (outcome_of (with_system (fun _ => 1) sample_env))
     = ast_dot (outcome_of sample_env)
  /\ commands (outcome_of (with_system (fun _ => 1) sample_env))
     = commands (outcome_of sample_env).
Proof.
  assert (H : main sample_env = Ok (outcome_of sample_env)) by (vm_compute; reflexivity).
  assert (H' : main (with_system (fun _ => 1) sample_env)
               = Ok (outcome_of (with_system (fun _ => 1) sample_env)))
    by (vm_compute; reflexivity).
  split; [by_computation|]. split; [exact H|]. split; [exact H'|].
  exact (proj2 (commands_only_change_warnings sample_env (fun _ => 1)
                  (outcome_of sample_env)
                  (outcome_of (with_system (fun _ => 1) sample_env))) H H').
Defined.

(** X10. On a file without any declaration [main] returns 0, reports a
    cyclomatic complexity of 1, the exponent 0 and 0 declarations, and
    writes an empty graph: the opening line and the closing line. *)
Theorem empty_file_run (env : Env) (path : string) (rest : list string)
    (unit : CXTranslationUnit) :
  args env = path :: rest ->
  fopen_w env "ast.dot" = true ->
  clang_parseTranslationUnit env path = Some unit ->
  tuDecls unit = [] ->
  exists o,
    main env = Ok o
    /\ exit_status o = 0
    /\ stdout o
       = [ "Cyclomatic Complexity: 1" +:+ newline;
           "Estimated Time Complexity: O(n^0) based on max loop nesting depth"
             +:+ newline;
           "Estimated Space Complexity: O(n) with 0 variable declarations"
             +:+ newline ]
    /\ ast_dot o = Some [DotOpen; DotClose]
    /\ file_text [DotOpen; DotClose] = "digraph G {" +:+ newline +:+ "}" +:+ newline.
Proof.
  intros Hargs Hopen Hparse Hempty.
  assert (Hrun : traverse unit = Ok (initial_metrics [DotOpen])).
  { rewrite traverse_unfold, Hempty. reflexivity. }
  eexists. split.
  - rewrite (main_parsed env path rest unit Hargs Hopen Hparse), Hrun. reflexivity.
  - repeat split.
Qed.

Lemma empty_file_run_witness :
  args empty_env = ["empty.c"]
  /\ fopen_w empty_env "ast.dot" = true
  /\ clang_parseTranslationUnit empty_env "empty.c" = Some empty_unit
  /\ tuDecls empty_unit = []
  /\ exists o,
       main empty_env = Ok o
       /\ exit_status o = 0
       /\ stdout o
          = [ "Cyclomatic Complexity: 1" +:+ newline;
              "Estimated Time Complexity: O(n^0) based on max loop nesting depth"
                +:+ newline;
              "Estimated Space Complexity: O(n) with 0 variable declarations"
                +:+ newline ]
       /\ ast_dot o = Some [DotOpen; DotClose]
       /\ file_text [DotOpen; DotClose]
          = "digraph G {" +:+ newline +:+ "}" +:+ newline.
Proof.
  split; [reflexivity|]. split; [reflexivity|]. split; [reflexivity|].
  split; [reflexivity|].
  exact (empty_file_run empty_env "empty.c" [] empty_unit
           eq_refl eq_refl eq_refl eq_refl).
Defined.

(** ** The accesses to the stack *)











(** ** How the reported numbers relate *)

Lemma count_le (p q : CXCursorKind -> bool) (l : list CXCursor) :
  (forall k, p k = true -> q k = true) -> count p l <= count q l.
Proof.
  intros Hpq. unfold count. apply inj_le.
  induction l as [|c l IH]; cbn [List.filter]; [lia|].
  destruct (p (clang_getCursorKind c)) eqn:Hp.
  - rewrite (Hpq _ Hp). cbn [length]. lia.
  - destruct (q (clang_getCursorKind c)); cbn [length]; lia.
Qed.

Lemma count_apart (p q : CXCursorKind -> bool) (l : list CXCursor) :
  (forall k, p k = true -> q k = false) ->
  count p l + count q l <= Z.of_nat (length l).
Proof.
  intros Hpq. unfold count. rewrite <- Nat2Z.inj_add. apply inj_le.
  induction l as [|c l IH]; cbn [List.filter length]; [lia|].
  destruct (p (clang_getCursorKind c)) eqn:Hp.
  - rewrite (Hpq _ Hp). cbn [length]. lia.
  - destruct (q (clang_getCursorKind c)); cbn [length]; lia.
Qed.

Lemma loop_depths_upper (cs : list CXCursor) :
  forall e d : Z,
    In d (flat_map (loop_depths e) cs) ->
    d <= e + count is_loop (flat_map preorder cs) /\ d <= e + levels cs.
Proof.
  induction cs as [|c cs IHc IHcs] using forest_ind; intros e d; [intros []|].
  pose proof (count_bounds is_loop cs).
  pose proof (count_bounds is_loop (cursorChildren c)).
  pose proof (levels_nonneg cs). pose proof (levels_nonneg (cursorChildren c)).
  rewrite loop_depths_cons, !in_app_iff, count_cons, levels_cons.
  unfold b2z. intros [Hd|[Hd|Hd]].
  - destruct (is_loop (clang_getCursorKind c)); [|destruct Hd].
    destruct Hd as [<-|[]]. lia.
  - apply IHc in Hd.
    destruct (is_loop (clang_getCursorKind c)); lia.
  - apply IHcs in Hd.
    destruct (is_loop (clang_getCursorKind c)); lia.
Qed.

Lemma loop_is_decision (k : CXCursorKind) : is_loop k = true -> is_decision k = true.
Proof. destruct k; vm_compute; congruence. Qed.

Lemma decision_is_no_declaration (k : CXCursorKind) :
  is_decision k = true -> is_var_decl k = false.
Proof. destruct k; vm_compute; congruence. Qed.

(** X12. After a completed traversal the numbers kept in the metrics are
    consistent with each other: the deepest loop nesting is not negative,
    below [cyclomatic] (every loop is a decision point) and at most the
    depth of the tree, and the decision points and the declarations
    together are at most the cursors counted by [nodeCounter] (no cursor is
    both).  The traversal completes on every tree within the limits. *)
Theorem metrics_are_consistent (unit : CXTranslationUnit) (m : Metrics) :
  (in_range unit -> exists m', traverse unit = Ok m')
  /\ (traverse unit = Ok m ->
      0 <= maxLoopDepth m < cyclomatic m
      /\ maxLoopDepth m <= depth (clang_getTranslationUnitCursor unit)
      /\ 0 <= varDeclCount m
      /\ (cyclomatic m - 1) + varDeclCount m <= nodeCounter m).
Proof.
  split; [apply traverse_completes|]. intros Hrun.
  destruct (traverse_inv unit m Hrun) as [C V _ M _ N _ _ _].
  cbn [initial_metrics cyclomatic varDeclCount currentLoopDepth maxLoopDepth
       nodeCounter] in C, V, M, N.
  rewrite depth_levels. cbn [clang_getTranslationUnitCursor cursorChildren].
  set (cursors := flat_map preorder (tuDecls unit)) in *.
  pose proof (count_le is_loop is_decision cursors loop_is_decision).
  pose proof (count_apart is_decision is_var_decl cursors decision_is_no_declaration).
  pose proof (count_bounds is_loop (tuDecls unit)) as Hloops. fold cursors in Hloops.
  pose proof (count_bounds is_var_decl (tuDecls unit)) as Hvars. fold cursors in Hvars.
  pose proof (levels_nonneg (tuDecls unit)).
  pose proof (fold_max_ge (flat_map (loop_depths 0) (tuDecls unit)) 0) as Hge.
  assert (Hmax : maxLoopDepth m <= count is_loop cursors
                 /\ maxLoopDepth m <= levels (tuDecls unit)).
  { rewrite M.
    destruct (fold_max_attained (flat_map (loop_depths 0) (tuDecls unit)) 0)
      as [->|Hin]; [lia|].
    apply loop_depths_upper in Hin. fold cursors in Hin. lia. }
  rewrite <- M in Hge. unfold total in N. fold cursors in N.
  repeat split; lia.
Qed.

Lemma metrics_are_consistent_witness :
  in_range sample_unit
  /\ traverse sample_unit = Ok sample_metrics
  /\ 0 <= maxLoopDepth sample_metrics < cyclomatic sample_metrics
  /\ maxLoopDepth sample_metrics <= depth (clang_getTranslationUnitCursor sample_unit)
  /\ 0 <= varDeclCount sample_metrics
  /\ (cyclomatic sample_metrics - 1) + varDeclCount sample_metrics
     <= nodeCounter sample_metrics.
Proof.
  assert (H : traverse sample_unit = Ok sample_metrics) by (vm_compute; reflexivity).
  split; [by_computation|]. split; [exact H|].
  exact (proj2 (metrics_are_consistent sample_unit sample_metrics) H).
Defined.

(** ** Labels that do no harm *)

Lemma append_cons (a : ascii) (s t : string) :
  String a s +:+ t = String a (s +:+ t).
Proof. reflexivity. Qed.

Lemma strip_prefix_append (prefix s t : string) :
  strip_prefix (prefix +:+ s) (prefix +:+ t) = strip_prefix s t.
Proof.
  induction prefix as [|a prefix IH]; [reflexivity|].
  rewrite !append_cons. cbn [strip_prefix]. now rewrite Ascii.eqb_refl.
Qed.

Lemma after_quoted_plain (label rest : string) :
  plain_label label = true ->
  after_quoted (label +:+ dquote +:+ rest) = Some rest.
Proof.
  induction label as [|a label IH]; [reflexivity|].
  cbn [plain_label]. rewrite !andb_true_iff, !negb_true_iff.
  intros [[Hq Hb] Hrest].
  rewrite append_cons. cbn [after_quoted]. rewrite Hq, Hb. now apply IH.
Qed.

(** X13. For a label without quote and without backslash, such as an
    identifier, the node line that [visitor] writes scans as one node
    statement with that label as its quoted attribute, whatever the
    identifier of the node. *)
Theorem plain_label_line_scans (id : Z) (label : string) :
  plain_label label = true ->
  node_line_scans id (dot_text (DotNode id label)) = true.
Proof.
  intros Hplain. unfold node_line_scans, dot_text.
  rewrite !strip_prefix_append.
  change (strip_prefix dquote (dquote +:+ ?s)) with (strip_prefix EmptyString s).
  cbn [strip_prefix].
  rewrite after_quoted_plain by exact Hplain.
  apply String.eqb_refl.
Qed.

Lemma plain_label_line_scans_witness :
  plain_label "main" = true
  /\ node_line_scans 7 (dot_text (DotNode 7 "main")) = true.
Proof.
  split; [reflexivity | exact (plain_label_line_scans 7 "main" eq_refl)].
Defined.

(** ** A translation unit with one top-level cursor *)

Lemma edge_targets_lines (cs : list CXCursor) :
  forall (p next : Z),
    map snd (edge_records (lines_of_forest (Some p) next cs))
    = seqZ next (total cs).
Proof.
  induction cs as [|c cs IHc IHcs] using forest_ind; intros p next; [reflexivity|].
  pose proof (total_nonneg cs). pose proof (total_nonneg (cursorChildren c)).
  rewrite lines_of_forest_cons, total_cons.
  change (edge_records (DotNode next (clang_getCursorSpelling c) :: ?l))
    with (edge_records l).
  rewrite !edge_records_app, !map_app, IHc, IHcs.
  change (map snd (edge_records [DotEdge p next])) with [next].
  rewrite (seqZ_cons next) by lia.
  replace (Z.pred (1 + total (cursorChildren c) + total cs))
    with (total (cursorChildren c) + total cs) by lia.
  rewrite seqZ_app by lia.
  replace (Z.succ next) with (next + 1) by lia. reflexivity.
Qed.

(** C5. For every tree with a single root, that is a translation unit with
    one top-level cursor [c] (the cursor of the unit itself is not visited
    and has no record), when the traversal has completed there are as many
    edge records as node records less 1, every node but the root [c] is the
    end of exactly one edge, which comes from its parent, and the node and
    edge records are the nodes and the parent-child pairs of a tree of the
    shape of [c], numbered in pre-order.  The traversal does complete on
    every tree within the stack and [int] limits. *)
Theorem edges_are_nodes_minus_one (unit : CXTranslationUnit) (c : CXCursor)
    (m : Metrics) :
  tuDecls unit = [c] ->
  (in_range unit -> exists m', traverse unit = Ok m')
  /\ (traverse unit = Ok m ->
      Z.of_nat (length (edge_records (dotFile m)))
      = Z.of_nat (length (node_records (dotFile m))) - 1
      /\ graph_of_tree c (node_records (dotFile m)) (edge_records (dotFile m))).
Proof.
  intros Hsingle. split; [apply traverse_completes|]. intros Hrun.
  rewrite (dotFile_traversed unit m (traverse_inv unit m Hrun)), Hsingle.
  change (node_records (DotOpen :: ?l)) with (node_records l).
  change (edge_records (DotOpen :: ?l)) with (edge_records l).
  pose proof (total_nonneg (cursorChildren c)) as Hnn.
  assert (Hnodes : Z.of_nat (length (node_records (lines_of_forest None 0 [c])))
                   = 1 + total (cursorChildren c)).
  { rewrite node_count_lines, total_cons. unfold total at 2. cbn. lia. }
  split; [|unfold graph_of_tree; repeat split].
  - rewrite edge_count_lines, node_count_lines. cbn [length]. lia.
  - pose proof (same_shape_forest [c] 0) as Hshape.
    cbn [number_forest] in Hshape. now inversion Hshape.
  - rewrite node_records_lines. cbn [number_forest flat_map]. apply app_nil_r.
  - rewrite edge_records_lines. cbn [number_forest flat_map edge_from app].
    apply app_nil_r.
  - rewrite Hnodes, lines_of_forest_cons.
    change (edge_records (DotNode 0 (clang_getCursorSpelling c) :: ?l))
      with (edge_records l).
    cbn [lines_of_forest app]. rewrite app_nil_r, edge_targets_lines.
    f_equal; lia.
Qed.

Lemma edges_are_nodes_minus_one_witness :
  tuDecls one_function_unit = [one_function]
  /\ in_range one_function_unit
  /\ traverse one_function_unit = Ok (traversed one_function_unit)
  /\ Z.of_nat (length (edge_records (dotFile (traversed one_function_unit))))
     = Z.of_nat (length (node_records (dotFile (traversed one_function_unit)))) - 1
  /\ graph_of_tree one_function
       (node_records (dotFile (traversed one_function_unit)))
       (edge_records (dotFile (traversed one_function_unit))).
Proof.
  assert (H : traverse one_function_unit = Ok (traversed one_function_unit))
    by (vm_compute; reflexivity).
  split; [reflexivity|]. split; [by_computation|]. split; [exact H|].
  exact (proj2 (edges_are_nodes_minus_one one_function_unit one_function
                  (traversed one_function_unit) eq_refl) H).
Defined.
